(** * Calorie-Tracker backend: the calorie resolution service

    A shallow embedding of
      - [src/backend/src/services/providers/USDAProvider.js]
      - [src/backend/src/services/FoodService.js]
      - [src/backend/src/controllers/calorieController.js] (the batch handler)
    and the properties of the resolver, the match selector, the result
    cache and the batch orchestrator.

    Conventions of the embedding.
      - A JavaScript number is [NaN], a signed infinity, or a finite value
        given by the rational it denotes ([number]); the product of two
        finite values is rounded to binary64 as IEEE 754 does, comparisons
        and [Math.round] are exact, and the two zeros are one value.
      - A JavaScript string is a [string] of one-byte characters.
      - [null] and [undefined] in an optional field are both [None]: every
        test the code makes on such a field is a truthiness test.
      - A thrown [Error] is its message ([Throw]).
      - Code that reads the clock, the cache or the upstream service is
        written in state-passing style over [World]. *)

From Stdlib Require Import ZArith QArith Qround Qpower Lia Lqa Ascii String.
From stdpp Require Import base strings list gmap pretty.

Local Open Scope string_scope.
Local Open Scope Z_scope.
Local Open Scope list_scope.

(** ** JavaScript numbers *)

Module Number.

Inductive number : Type :=
| NaN
| Infinity (negative : bool)
| Finite (q : Q).

Definition of_Z (z : Z) : number := Finite (inject_Z z).

Definition zero : number := of_Z 0.

(** [Boolean(x)] for a number: false for [NaN] and for zero. *)
Definition truthy (x : number) : bool :=
  match x with
  | NaN => false
  | Infinity _ => true
  | Finite q => negb (Qnum q =? 0)
  end.

(** [x < y]; false as soon as one side is [NaN]. *)
Definition lt (x y : number) : bool :=
  match x, y with
  | NaN, _ | _, NaN => false
  | Infinity true, Infinity true => false
  | Infinity true, _ => true
  | _, Infinity true => false
  | Infinity false, _ => false
  | Finite _, Infinity false => true
  | Finite p, Finite q =>
      match (p ?= q)%Q with Lt => true | _ => false end
  end.

(** [x === y] on numbers. *)
Definition eq (x y : number) : bool :=
  match x, y with
  | Infinity a, Infinity b => Bool.eqb a b
  | Finite p, Finite q => Qeq_bool p q
  | _, _ => false
  end.

Definition gt (x y : number) : bool := lt y x.

(** [x <= y] is [x < y || x == y] in JavaScript, hence false on [NaN]. *)
Definition le (x y : number) : bool := lt x y || eq x y.

Definition sign (q : Q) : comparison := (Qnum q ?= 0)%Z.

(** A finite number is given by its exact value.  The finite numbers of
    JavaScript are the binary64 ones, [m * 2 ^ e] with [|m| < 2 ^ 53] and
    [-1074 <= e <= 971]; the arithmetic rounds an exact result to the
    nearest of them, to the one with the even [m] when two are as near, and
    to an infinity from [2 ^ 1024] on.  There is one zero. *)

(** [floor (log2 q)] for [0 < q]. *)
Definition floor_log2 (q : Q) : Z :=
  let k := Z.log2 (Qnum q) - Z.log2 (Zpos (Qden q)) in
  if Qle_bool (2 ^ k) q then k else k - 1.

(** The nearest integer, the even one of two. *)
Definition nearest_even (q : Q) : Z :=
  let f := Qfloor q in
  match (q - inject_Z f ?= 1 # 2)%Q with
  | Lt => f
  | Gt => f + 1
  | Eq => if Z.even f then f else f + 1
  end.

(** The exponent [e] of the binary64 numbers around [q]: 53 bits from the
    leading one, but not below the exponent of the subnormal numbers. *)
Definition exponent (q : Q) : Z := Z.max (floor_log2 q - 52) (-1074).

(** The multiple of [2 ^ exponent q] nearest to [q], for [0 < q]. *)
Definition nearest (q : Q) : Q :=
  (inject_Z (nearest_even (q / 2 ^ exponent q)) * 2 ^ exponent q)%Q.

Definition double_pos (q : Q) : number :=
  if Qle_bool (2 ^ 1024) (nearest q) then Infinity false
  else Finite (Qred (nearest q)).

(** [-x]. *)
Definition neg (x : number) : number :=
  match x with
  | NaN => NaN
  | Infinity a => Infinity (negb a)
  | Finite q => Finite (- q)
  end.

(** The binary64 number for the exact value [q]: what a literal denotes and
    what an operation with the exact result [q] returns. *)
Definition double (q : Q) : number :=
  match sign q with
  | Eq => Finite 0
  | Gt => double_pos q
  | Lt => neg (double_pos (- q))
  end.

(** [x * y]. *)
Definition mul (x y : number) : number :=
  match x, y with
  | NaN, _ | _, NaN => NaN
  | Infinity a, Infinity b => Infinity (xorb a b)
  | Infinity a, Finite q | Finite q, Infinity a =>
      match sign q with
      | Eq => NaN
      | Gt => Infinity a
      | Lt => Infinity (negb a)
      end
  | Finite p, Finite q => double (p * q)
  end.

(** [Math.round]: the nearest integer, halves going up. *)
Definition round (x : number) : number :=
  match x with
  | Finite q => of_Z (Qfloor (q + (1 # 2)))
  | _ => x
  end.

(** [a || b] where both operands are numbers. *)
Definition or (a b : number) : number := if truthy a then a else b.

(** Digits after the decimal point of a fraction [n / d] with [0 <= n < d],
    at most [k] of them. *)
Fixpoint fraction_digits (k : nat) (n d : Z) : string :=
  match k with
  | O => ""
  | S k' =>
      if n =? 0 then ""
      else pretty (10 * n / d) +:+ fraction_digits k' (10 * n mod d) d
  end.

(** [String(x)], as in a template literal.  Integers print as JavaScript
    prints them below 1e21; other finite values print positionally with
    at most 17 fractional digits. *)
Definition toString (x : number) : string :=
  match x with
  | NaN => "NaN"
  | Infinity false => "Infinity"
  | Infinity true => "-Infinity"
  | Finite q =>
      let n := Qnum q in
      let d := Zpos (Qden q) in
      let i := Z.abs n / d in
      let r := Z.abs n mod d in
      (if n <? 0 then "-" else "") +:+ pretty i +:+
      (if r =? 0 then "" else "." +:+ fraction_digits 17 r d)
  end.

End Number.

Export Number (number, NaN, Infinity, Finite).

(** ** JavaScript strings *)

Module JsString.

Definition lower_char (c : ascii) : ascii :=
  let n := nat_of_ascii c in
  if ((65 <=? n) && (n <=? 90))%nat then ascii_of_nat (n + 32) else c.

Fixpoint toLowerCase (s : string) : string :=
  match s with
  | EmptyString => EmptyString
  | String c r => String (lower_char c) (toLowerCase r)
  end.

(** White space and line terminators among the one-byte characters. *)
Definition is_space (c : ascii) : bool :=
  let n := nat_of_ascii c in
  ((n =? 32) || ((9 <=? n) && (n <=? 13)))%nat.

Fixpoint trimStart (s : string) : string :=
  match s with
  | String c r => if is_space c then trimStart r else s
  | EmptyString => EmptyString
  end.

Fixpoint trimEnd (s : string) : string :=
  match s with
  | EmptyString => EmptyString
  | String c r =>
      match trimEnd r with
      | EmptyString => if is_space c then EmptyString else String c EmptyString
      | r' => String c r'
      end
  end.

Definition trim (s : string) : string := trimEnd (trimStart s).

Fixpoint startsWith (p s : string) : bool :=
  match p, s with
  | EmptyString, _ => true
  | String a p', String b s' => if Ascii.eqb a b then startsWith p' s' else false
  | String _ _, EmptyString => false
  end.

(** [s.includes(sub)]. *)
Fixpoint includes (sub s : string) : bool :=
  startsWith sub s ||
  match s with
  | EmptyString => false
  | String _ r => includes sub r
  end.

Definition length (s : string) : nat := String.length s.

Definition truthy (s : string) : bool :=
  match s with EmptyString => false | _ => true end.

End JsString.

(** ** JavaScript values and completions *)

Module Js.

(** The values a request body can put in a field. *)
Inductive value : Type :=
| VUndefined
| VNull
| VBool (b : bool)
| VNumber (n : number)
| VString (s : string)
| VObject.

(** [Boolean(v)], the test behind [!v], [v && _] and [v || _]. *)
Definition truthy (v : value) : bool :=
  match v with
  | VUndefined | VNull => false
  | VBool b => b
  | VNumber n => Number.truthy n
  | VString s => JsString.truthy s
  | VObject => true
  end.

(** Truthiness of an optional numeric field. *)
Definition truthy_num (o : option number) : bool :=
  match o with
  | Some n => Number.truthy n
  | None => false
  end.

(** [a || b || 0] on two optional numeric fields. *)
Definition or_zero (a b : option number) : number :=
  match a with
  | Some x => if Number.truthy x then x else
                match b with
                | Some y => Number.or y Number.zero
                | None => Number.zero
                end
  | None => match b with
            | Some y => Number.or y Number.zero
            | None => Number.zero
            end
  end.

(** How a call completes: it returns, or it throws. *)
Inductive completion (E A : Type) : Type :=
| Return (a : A)
| Throw (e : E).

Arguments Return {E A} a.
Arguments Throw {E A} e.

End Js.

Export Js (value, VUndefined, VNull, VBool, VNumber, VString, VObject,
           completion, Return, Throw).

(** [new Error(message)]. *)
Definition Error : Type := string.

(** ** Data of the provider interface *)

(** An entry of a food item's nutrient map: [{ value, unit }]. *)
Record Nutrient : Type := mkNutrient {
  nutrient_value : number;
  nutrient_unit : option string
}.

(** A food item as the providers hand it to the service. *)
Record FoodItem : Type := mkFoodItem {
  id : option Z;
  description : string;
  dataType : option string;
  calories : option number;
  nutrients : gmap string Nutrient;
  ingredients : list string;
  servingSize : option (number * string);
  brandOwner : option string;
  score : option number
}.

Definition set_calories (c : number) (item : FoodItem) : FoodItem :=
  {| id := id item; description := description item;
     dataType := dataType item; calories := Some c;
     nutrients := nutrients item; ingredients := ingredients item;
     servingSize := servingSize item; brandOwner := brandOwner item;
     score := score item |}.

(** The object built by [calculateCalories]; [getCalories] then sets
    [searchResults], [matchScore] and [timestamp] on it. *)
Record CalorieResult : Type := mkCalorieResult {
  dish_name : string;
  servings : number;
  calories_per_serving : number;
  total_calories : number;
  source : string;
  result_ingredients : list string;
  result_nutrients : gmap string Nutrient;
  searchResults : option nat;
  matchScore : option number;
  timestamp : option Z
}.

Record ProviderInfo : Type := mkProviderInfo {
  name : string;
  version : string;
  info_description : string;
  website : string;
  rateLimit : string
}.

Record SearchOptions : Type := mkSearchOptions {
  pageSize : option nat;
  pageNumber : option nat
}.

(** [FoodDataProvider]: the abstract interface.  [searchFood] goes to the
    network: what it answers may depend on the time of the call and on the
    calls made before, and it takes time; the answer is the elapsed time in
    milliseconds and the completion of the promise. *)
Record FoodDataProvider : Type := mkProvider {
  searchFood :
    Z -> list (string * SearchOptions) -> string -> SearchOptions ->
    Z * completion Error (list FoodItem);
  calculateCalories :
    option FoodItem -> number -> completion Error CalorieResult;
  getProviderInfo : ProviderInfo
}.

(** ** USDAProvider *)

Module USDAProvider.

(** The nested [nutrient] object of a food nutrient. *)
Record NutrientRef : Type := mkNutrientRef {
  ref_id : option Z;
  ref_name : option string;
  ref_unitName : option string
}.

(** An entry of [foodNutrients] in an API answer. *)
Record FoodNutrient : Type := mkFoodNutrient {
  nutrientId : option Z;
  nutrient : option NutrientRef;
  nutrientName : option string;
  value : option number;
  amount : option number;
  unitName : option string
}.

(** An entry of a nutrient object in the processed format. *)
Record EnergyEntry : Type := mkEnergyEntry {
  entry_value : option number;
  entry_amount : option number
}.

(** The argument of [_extractCalories]: absent, an array, or an object
    with named entries. *)
Inductive Nutrients : Type :=
| Absent
| Array (entries : list FoodNutrient)
| Object (props : gmap string EnergyEntry).

(** A food of an API answer.  [other] holds the properties of the JSON
    object that the provider never reads. *)
Record Food : Type := mkFood {
  fdcId : option Z;
  food_description : string;
  food_dataType : option string;
  foodNutrients : Nutrients;
  food_ingredients : option (list string);
  foodComponents : option (list string);
  food_servingSize : option number;
  servingSizeUnit : option string;
  food_brandOwner : option string;
  food_score : option number;
  other : gmap string Js.value
}.

Record SearchData : Type := mkSearchData {
  foods : option (list Food)
}.

(** The parameters of [GET /foods/search]. *)
Record SearchParams : Type := mkSearchParams {
  query : string;
  param_pageSize : nat;
  param_pageNumber : nat;
  param_dataType : string;
  sortBy : string;
  sortOrder : string
}.

(** A rejected request, as axios reports it. *)
Record AxiosError : Type := mkAxiosError {
  response_status : option Z;
  response_message : option string;
  error_message : option string
}.

(** The upstream service: from the time of the request, the requests
    sent before and the request, the time it takes and the answer. *)
Definition Upstream : Type :=
  Z -> list SearchParams -> SearchParams -> Z * (SearchData + AxiosError).

Definition is_energy (n : FoodNutrient) : bool :=
  match nutrientId n with Some i => i =? 208 | None => false end
  || match nutrient n with
     | Some r => match ref_id r with Some i => i =? 208 | None => false end
     | None => false
     end
  || match nutrient n with
     | Some r =>
         match ref_name r with
         | Some s =>
             JsString.truthy s &&
             JsString.includes "energy" (JsString.toLowerCase s)
         | None => false
         end
     | None => false
     end.

(** The properties the object branch reads, for each kind of argument:
    an array has no property named after energy. *)
Definition props_of (nutrients : Nutrients) : gmap string EnergyEntry :=
  match nutrients with
  | Object props => props
  | _ => ∅
  end.

(** The loop over [energyKeys]. *)
Fixpoint scan_keys (props : gmap string EnergyEntry) (keys : list string)
  : option number :=
  match keys with
  | [] => None
  | key :: rest =>
      match props !! key with
      | Some e =>
          if Js.truthy_num (entry_value e)
          then Some (Number.round (default Number.zero (entry_value e)))
          else scan_keys props rest
      | None => scan_keys props rest
      end
  end.

Definition _extractCalories (nutrients : Nutrients) : option number :=
  match nutrients with
  | Absent => None
  | _ =>
      let from_array :=
        match nutrients with
        | Array entries =>
            match List.find is_energy entries with
            | Some energyNutrient =>
                Some (Number.round
                        (Js.or_zero (value energyNutrient)
                                    (amount energyNutrient)))
            | None => None
            end
        | _ => None
        end in
      match from_array with
      | Some c => Some c
      | None =>
          let props := props_of nutrients in
          match scan_keys props ["energy"; "Energy"; "ENERGY"] with
          | Some c => Some c
          | None =>
              match props !! "energy" with
              | Some e =>
                  Some (Number.round
                          (Js.or_zero (entry_value e) (entry_amount e)))
              | None => None
              end
          end
      end
  end.

(** One step of the [forEach] of [_extractNutrients].  [nutrientMap] is a
    plain object: assigning to ["__proto__"] sets its prototype and adds no
    key. *)
Definition add_nutrient (nutrientMap : gmap string Nutrient)
    (n : FoodNutrient) : gmap string Nutrient :=
  let nutrientName :=
    match nutrient n with
    | Some r => ref_name r
    | None => nutrientName n
    end in
  let nutrientValue := Js.or_zero (value n) (amount n) in
  let nutrientUnit :=
    match nutrient n with
    | Some r => ref_unitName r
    | None => unitName n
    end in
  match nutrientName with
  | Some s =>
      if JsString.truthy s
      then
        let key := JsString.toLowerCase s in
        if String.eqb key "__proto__" then nutrientMap
        else <[key := mkNutrient nutrientValue nutrientUnit]> nutrientMap
      else nutrientMap
  | None => nutrientMap
  end.

Definition _extractNutrients (nutrients : Nutrients)
  : gmap string Nutrient :=
  match nutrients with
  | Array entries => fold_left add_nutrient entries ∅
  | _ => ∅
  end.

Definition _extractServingSize (size : option number)
    (unit : option string) : option (number * string) :=
  match size with
  | Some s =>
      if Number.truthy s
      then Some (s, match unit with
                    | Some u => if JsString.truthy u then u else "g"
                    | None => "g"
                    end)
      else None
  | None => None
  end.

Definition transform_food (food : Food) : FoodItem :=
  {| id := fdcId food;
     description := food_description food;
     dataType := food_dataType food;
     calories := _extractCalories (foodNutrients food);
     nutrients := _extractNutrients (foodNutrients food);
     ingredients :=
       match food_ingredients food with
       | Some i => i
       | None => default [] (foodComponents food)
       end;
     servingSize :=
       _extractServingSize (food_servingSize food) (servingSizeUnit food);
     brandOwner := food_brandOwner food;
     score := food_score food |}.

Definition _transformSearchResults (data : SearchData) : list FoodItem :=
  match foods data with
  | Some fs => map transform_food fs
  | None => []
  end.

Definition _handleError (error : AxiosError) : Error :=
  let errorMessage :=
    match response_message error with
    | Some m => if JsString.truthy m then m
                else match error_message error with
                     | Some m' => if JsString.truthy m' then m'
                                  else "Unknown error"
                     | None => "Unknown error"
                     end
    | None => match error_message error with
              | Some m' => if JsString.truthy m' then m' else "Unknown error"
              | None => "Unknown error"
              end
    end in
  let statusCode :=
    match response_status error with
    | Some s => if s =? 0 then 500 else s
    | None => 500
    end in
  if statusCode =? 401 then "Invalid USDA API key"
  else if statusCode =? 403 then "USDA API access denied"
  else if statusCode =? 429 then "USDA API rate limit exceeded"
  else if 500 <=? statusCode then "USDA API service unavailable"
  else "USDA API error: " +:+ errorMessage.

Definition search_params (q : string) (options : SearchOptions)
  : SearchParams :=
  {| query := JsString.trim q;
     param_pageSize :=
       match pageSize options with
       | Some n => if (n =? 0)%nat then 25%nat else n
       | None => 25%nat
       end;
     param_pageNumber :=
       match pageNumber options with
       | Some n => if (n =? 0)%nat then 1%nat else n
       | None => 1%nat
       end;
     param_dataType := "Survey (FNDDS),SR Legacy";
     sortBy := "dataType.keyword";
     sortOrder := "asc" |}.

Definition info : ProviderInfo :=
  {| name := "USDA FoodData Central";
     version := "v1";
     info_description :=
       "United States Department of Agriculture Food Data Central API";
     website := "https://fdc.nal.usda.gov/";
     rateLimit := "1000 requests per hour" |}.

Definition searchFood (api : Upstream) (now : Z)
    (before : list (string * SearchOptions))
    (q : string) (options : SearchOptions)
  : Z * completion Error (list FoodItem) :=
  let sent := map (fun c => search_params (fst c) (snd c)) before in
  match api now sent (search_params q options) with
  | (elapsed, inl data) => (elapsed, Return (_transformSearchResults data))
  | (elapsed, inr error) => (elapsed, Throw (_handleError error))
  end.

Definition calculateCalories (foodItem : option FoodItem)
    (servings : number) : completion Error CalorieResult :=
  match foodItem with
  | None => Throw "Invalid food item or missing calorie data"
  | Some item =>
      if negb (Js.truthy_num (calories item))
      then Throw "Invalid food item or missing calorie data"
      else if negb (Number.truthy servings)
              || Number.le servings Number.zero
      then Throw "Servings must be a positive number"
      else
        let caloriesPerServing := default NaN (calories item) in
        let totalCalories :=
          Number.round (Number.mul caloriesPerServing servings) in
        Return
          {| dish_name := description item;
             servings := servings;
             calories_per_serving := caloriesPerServing;
             total_calories := totalCalories;
             source := name info;
             result_ingredients := ingredients item;
             result_nutrients := nutrients item;
             searchResults := None;
             matchScore := None;
             timestamp := None |}
  end.

Definition provider (api : Upstream) : FoodDataProvider :=
  mkProvider (searchFood api) calculateCalories info.

End USDAProvider.

(** ** The result cache (node-cache)

    An entry holds its value and the instant [t] after which it is dead
    ([0]: it never dies).  [get] does not return a dead entry, and deletes
    the one it comes upon.  [written] records, oldest first, every [set]
    made on the cache.  The counters node-cache keeps of hits, misses and
    sizes, and its periodic sweep of dead entries, are not modelled. *)

Module NodeCache.

Record Entry : Type := mkEntry {
  t : Z;
  v : CalorieResult
}.

Record Cache : Type := mkCache {
  stdTTL : Z;
  data : gmap string Entry;
  written : list (string * CalorieResult)
}.

Definition create (stdTTL : Z) : Cache :=
  {| stdTTL := stdTTL; data := ∅; written := [] |}.

(** An entry is alive at [now] unless [t] is a past instant. *)
Definition alive (now : Z) (e : Entry) : bool :=
  negb (negb (t e =? 0) && (t e <? now)).

(** What [get(key)] returns; the cache it leaves is [checked], below. *)
Definition get (c : Cache) (now : Z) (key : string) : option CalorieResult :=
  match data c !! key with
  | Some e => if alive now e then Some (v e) else None
  | None => None
  end.

(** [del(key)]. *)
Definition del (c : Cache) (key : string) : Cache :=
  {| stdTTL := stdTTL c;
     data := delete key (data c);
     written := written c |}.

(** The cache after [get(key)]: the entry of [key] is deleted if it is
    dead. *)
Definition checked (c : Cache) (now : Z) (key : string) : Cache :=
  match data c !! key with
  | Some e => if alive now e then c else del c key
  | None => c
  end.

Definition livetime (c : Cache) (now : Z) : Z :=
  if stdTTL c =? 0 then 0 else now + stdTTL c * 1000.

Definition set (c : Cache) (now : Z) (key : string) (value : CalorieResult)
  : Cache :=
  {| stdTTL := stdTTL c;
     data := <[key := mkEntry (livetime c now) value]> (data c);
     written := written c ++ [(key, value)] |}.

End NodeCache.

(** ** The world the service runs in *)

Record World : Type := mkWorld {
  clock : Z;
  cache : NodeCache.Cache;
  calls : list (string * SearchOptions)
}.

(** ** FoodService *)

Module FoodService.

(** [parseInt(process.env.CACHE_TTL_SECONDS) || 3600]; [None] is an unset
    or unreadable variable. *)
Definition ttl_of_env (CACHE_TTL_SECONDS : option Z) : Z :=
  match CACHE_TTL_SECONDS with
  | Some n => if n =? 0 then 3600 else n
  | None => 3600
  end.

Definition new_cache (CACHE_TTL_SECONDS : option Z) : NodeCache.Cache :=
  NodeCache.create (ttl_of_env CACHE_TTL_SECONDS).

(** The error [getCalories] throws, built by [_handleError]. *)
Record ServiceError : Type := mkServiceError {
  message : string;
  originalError : string;
  service : string
}.

(** *** Effects of [getCalories] *)

Definition M (A : Type) : Type := World -> completion Error A * World.

Definition ret {A} (a : A) : M A := fun w => (Return a, w).

Definition throw {A} (e : Error) : M A := fun w => (Throw e, w).

Definition bind {A B} (c : M A) (k : A -> M B) : M B :=
  fun w =>
    match c w with
    | (Return a, w') => k a w'
    | (Throw e, w') => (Throw e, w')
    end.

Definition lift {A} (c : completion Error A) : M A := fun w => (c, w).

Notation "'let*' x ':=' c 'in' k" := (bind c (fun x => k))
  (at level 10, x pattern, c at level 100, k at level 200).

Definition now : M Z := fun w => (Return (clock w), w).

(** The world after [this.cache.get(key)]. *)
Definition after_get (w : World) (key : string) : World :=
  {| clock := clock w;
     cache := NodeCache.checked (cache w) (clock w) key;
     calls := calls w |}.

Definition cache_get (key : string) : M (option CalorieResult) :=
  fun w =>
    (Return (NodeCache.get (cache w) (clock w) key), after_get w key).

(** The world after [this.cache.set(key, value)]. *)
Definition after_set (w : World) (key : string) (value : CalorieResult)
  : World :=
  {| clock := clock w;
     cache := NodeCache.set (cache w) (clock w) key value;
     calls := calls w |}.

Definition cache_set (key : string) (value : CalorieResult) : M unit :=
  fun w => (Return tt, after_set w key value).

(** The world once a search sent from [w] has been answered. *)
Definition after_search (w : World) (elapsed : Z) (q : string)
    (options : SearchOptions) : World :=
  {| clock := clock w + elapsed;
     cache := cache w;
     calls := calls w ++ [(q, options)] |}.

(** [await this.provider.searchFood(query, options)]. *)
Definition await_search (provider : FoodDataProvider) (q : string)
    (options : SearchOptions) : M (list FoodItem) :=
  fun w =>
    let (elapsed, answer) :=
      searchFood provider (clock w) (calls w) q options in
    (answer, after_search w elapsed q options).

(** *** Helpers of the class *)

Definition _validateInput (dishName servings : value)
  : completion Error (string * number) :=
  match dishName with
  | VString d =>
      if negb (JsString.truthy d)
         || (JsString.length (JsString.trim d) =? 0)%nat
      then Throw "Dish name is required and must be a non-empty string"
      else
        match servings with
        | VNumber s =>
            if negb (Number.truthy s) || Number.le s Number.zero
            then Throw "Servings must be a positive number"
            else if Number.gt s (Number.of_Z 50)
            then Throw "Maximum 50 servings allowed"
            else if (200 <? JsString.length d)%nat
            then Throw "Dish name too long (maximum 200 characters)"
            else Return (d, s)
        | _ => Throw "Servings must be a positive number"
        end
  | _ => Throw "Dish name is required and must be a non-empty string"
  end.

Definition _generateCacheKey (dishName : string) (servings : number)
  : string :=
  "calories_" +:+ JsString.trim (JsString.toLowerCase dishName) +:+ "_"
    +:+ Number.toString servings.

(** The three tests of [_findBestMatch]. *)
Definition exact (dishName : string) (item : FoodItem) : bool :=
  String.eqb (JsString.toLowerCase (description item))
             (JsString.toLowerCase dishName).

Definition has_calories (item : FoodItem) : bool :=
  Js.truthy_num (calories item)
  && match calories item with
     | Some c => Number.gt c Number.zero
     | None => false
     end.

Definition has_energy (item : FoodItem) : bool :=
  match nutrients item !! "energy" with
  | Some e => Number.gt (nutrient_value e) Number.zero
  | None => false
  end.

(** [searchResults.find(test)]: the position and the element. *)
Definition find (test : FoodItem -> bool) (searchResults : list FoodItem)
  : option (nat * FoodItem) :=
  list_find (fun item => Is_true (test item)) searchResults.

(** [_findBestMatch] returns one of the objects of [searchResults] and may
    assign its [calories]; here it returns the position of that object and
    the array after the call. *)
Definition _findBestMatch (dishName : string) (searchResults : list FoodItem)
  : option nat * list FoodItem :=
  match searchResults with
  | [] => (None, searchResults)
  | firstResult :: _ =>
      let exactMatch :=
        match find (exact dishName) searchResults with
        | Some (i, item) =>
            if Js.truthy_num (calories item) then Some i else None
        | None => None
        end in
      match exactMatch with
      | Some i => (Some i, searchResults)
      | None =>
          match find has_calories searchResults with
          | Some (i, _) => (Some i, searchResults)
          | None =>
              match find has_energy searchResults with
              | Some (i, withEnergyNutrient) =>
                  let energy :=
                    match nutrients withEnergyNutrient !! "energy" with
                    | Some e => nutrient_value e
                    | None => NaN
                    end in
                  (Some i,
                   <[i := set_calories (Number.round energy)
                            withEnergyNutrient]> searchResults)
              | None =>
                  (Some 0%nat,
                   match nutrients firstResult !! "energy" with
                   | Some e =>
                       <[0%nat :=
                           set_calories
                             (Number.round
                                (Number.or (nutrient_value e) Number.zero))
                             firstResult]> searchResults
                   | None => searchResults
                   end)
              end
          end
      end
  end.

(** The object [_findBestMatch] returned. *)
Definition bestMatch (dishName : string) (searchResults : list FoodItem)
  : option FoodItem :=
  let (selected, after) := _findBestMatch dishName searchResults in
  match selected with
  | Some i => after !! i
  | None => None
  end.

Definition errorMappings : list (string * string) :=
  [ ("Dish not found",
     "Sorry, we could not find that dish in our database");
    ("Invalid servings",
     "Please enter a valid number of servings (greater than 0)");
    ("USDA API rate limit exceeded",
     "Service temporarily busy, please try again in a few minutes");
    ("USDA API service unavailable",
     "Food database service is temporarily unavailable");
    ("Invalid USDA API key",
     "Food database service configuration error") ].

Fixpoint mapped (key : string) (table : list (string * string))
  : option string :=
  match table with
  | [] => None
  | (k, m) :: rest => if String.eqb k key then Some m else mapped key rest
  end.

Definition _handleError (error : Error) : ServiceError :=
  let userMessage := default error (mapped error errorMappings) in
  {| message := userMessage;
     originalError := error;
     service := "FoodService" |}.

(** *** [getCalories] *)

(** The three assignments under [// Add metadata]. *)
Definition add_metadata (result : CalorieResult) (count : nat)
    (matchScore : option number) (stamp : Z) : CalorieResult :=
  {| dish_name := dish_name result;
     servings := servings result;
     calories_per_serving := calories_per_serving result;
     total_calories := total_calories result;
     source := source result;
     result_ingredients := result_ingredients result;
     result_nutrients := result_nutrients result;
     searchResults := Some count;
     matchScore := matchScore;
     timestamp := Some stamp |}.

(** The options of the search: [{ pageSize: 10 }]. *)
Definition page_of_ten : SearchOptions :=
  {| pageSize := Some 10%nat; pageNumber := None |}.

(** The body of the [try] block. *)
Definition getCalories_body (provider : FoodDataProvider)
    (dishName servings : value) : M CalorieResult :=
  let* (name, count) := lift (_validateInput dishName servings) in
  let cacheKey := _generateCacheKey name count in
  let* cachedResult := cache_get cacheKey in
  match cachedResult with
  | Some result => ret result
  | None =>
      let* searchResults :=
        await_search provider name page_of_ten in
      if (List.length searchResults =? 0)%nat
      then throw "Dish not found"
      else
        match bestMatch name searchResults with
        | None =>
            throw "Dish not found or calorie information unavailable"
        | Some best =>
            if negb (Js.truthy_num (calories best))
            then throw "Dish not found or calorie information unavailable"
            else
              let* result := lift (calculateCalories provider (Some best) count) in
              let* stamp := now in
              let result :=
                add_metadata result (List.length searchResults)
                             (score best) stamp in
              let* _ := cache_set cacheKey result in
              ret result
        end
  end.

(** [try { ... } catch (error) { throw this._handleError(error) }]. *)
Definition getCalories (provider : FoodDataProvider)
    (dishName servings : value)
  : World -> completion ServiceError CalorieResult * World :=
  fun w =>
    match getCalories_body provider dishName servings w with
    | (Return result, w') => (Return result, w')
    | (Throw error, w') => (Throw (_handleError error), w')
    end.

End FoodService.

(** ** The batch handler of calorieController *)

Module Controller.

(** An object of the [dishes] array of the request body; a field it lacks
    is [VUndefined]. *)
Record Dish : Type := mkDish {
  body_dish_name : value;
  body_servings : value
}.

(** An element of [errors]; [dish] is the element of [dishes] as it came,
    [None] for [null]. *)
Record Failure : Type := mkFailure {
  dish : option Dish;
  error : string
}.

Record Summary : Type := mkSummary {
  total_requested : nat;
  successful : nat;
  failed : nat
}.

(** What the handler sends: [res.status(...).json(...)]. *)
Inductive Response : Type :=
| BadRequest (status : nat) (error : string)
| Success (status : nat) (results : list CalorieResult)
          (errors : list Failure) (summary : Summary).

(** The message of the TypeError for [dish.dish_name] on [null]. *)
Definition null_dish : string :=
  "Cannot read properties of null (reading 'dish_name')".

(** One turn of the [for ... of] loop. *)
Definition batch_step (provider : FoodDataProvider) (element : option Dish)
    (acc : list CalorieResult * list Failure) (w : World)
  : (list CalorieResult * list Failure) * World :=
  let (results, errors) := acc in
  match element with
  | None => ((results, errors ++ [mkFailure element null_dish]), w)
  | Some d =>
      if negb (Js.truthy (body_dish_name d))
         || negb (Js.truthy (body_servings d))
      then
        ((results,
          errors ++ [mkFailure element "dish_name and servings are required"]),
         w)
      else
        match FoodService.getCalories provider
                (body_dish_name d) (body_servings d) w with
        | (Return result, w') => ((results ++ [result], errors), w')
        | (Throw e, w') =>
            ((results, errors ++ [mkFailure element (FoodService.message e)]),
             w')
        end
  end.

Fixpoint batch_loop (provider : FoodDataProvider)
    (dishes : list (option Dish))
    (acc : list CalorieResult * list Failure) (w : World)
  : (list CalorieResult * list Failure) * World :=
  match dishes with
  | [] => (acc, w)
  | element :: rest =>
      let (acc', w') := batch_step provider element acc w in
      batch_loop provider rest acc' w'
  end.

(** [dishes] is [None] when the body has no array under that name. *)
Definition getBatchCalories (provider : FoodDataProvider)
    (dishes : option (list (option Dish))) (w : World) : Response * World :=
  match dishes with
  | None =>
      (BadRequest 400 "Dishes array is required and must not be empty", w)
  | Some ds =>
      if (List.length ds =? 0)%nat
      then
        (BadRequest 400 "Dishes array is required and must not be empty", w)
      else if (10 <? List.length ds)%nat
      then (BadRequest 400 "Maximum 10 dishes allowed per batch request", w)
      else
        let '((results, errors), w') := batch_loop provider ds ([], []) w in
        (Success 200 results errors
           {| total_requested := List.length ds;
              successful := List.length results;
              failed := List.length errors |},
         w')
  end.

End Controller.

(** ** Concrete foods, answers and worlds *)

Module Scenario.

Import USDAProvider.

Definition plain_item (text : string) (c : option number) : FoodItem :=
  {| id := None; description := text; dataType := None; calories := c;
     nutrients := ∅; ingredients := []; servingSize := None;
     brandOwner := None; score := None |}.

(** The food of the test suite: 350 kcal per serving. *)
Definition macaroni : FoodItem :=
  plain_item "Macaroni and cheese" (Some (Number.of_Z 350)).

Definition one : number := Number.of_Z 1.
Definition two : number := Number.of_Z 2.

(** Three candidates for the query "pizza": the first has the name and no
    calories, the last has the name and calories. *)
Definition pizzas : list FoodItem :=
  [ plain_item "pizza" None;
    plain_item "Pasta" (Some (Number.of_Z 100));
    plain_item "Pizza" (Some (Number.of_Z 200)) ].

(** Macaroni and cheese as the API describes it, with 349.9 kcal. *)
Definition macaroni_food : Food :=
  {| fdcId := Some 12345; food_description := "Macaroni and cheese";
     food_dataType := Some "SR Legacy";
     foodNutrients :=
       Array [ mkFoodNutrient (Some 208) None (Some "Energy")
                 (Some (Finite (3499 # 10))) None (Some "KCAL") ];
     food_ingredients := None; foodComponents := None;
     food_servingSize := None; servingSizeUnit := None;
     food_brandOwner := None; food_score := Some (Number.of_Z 95);
     other := ∅ |}.

(** An upstream service that knows this one food, whatever the query, and
    answers in 5 ms. *)
Definition macaroni_api : Upstream :=
  fun _ _ _ => (5, inl (mkSearchData (Some [macaroni_food]))).

(** An upstream service that never finds anything. *)
Definition empty_api : Upstream :=
  fun _ _ _ => (5, inl (mkSearchData (Some []))).

(** A fresh service, one second after the epoch, with the default TTL. *)
Definition fresh : World :=
  {| clock := 1000; cache := FoodService.new_cache None; calls := [] |}.

Definition dish (text : string) (count : number) : option Controller.Dish :=
  Some (Controller.mkDish (VString text) (VNumber count)).

(** A batch of three: two servings of macaroni, a pizza without servings
    and [null]. *)
Definition three_dishes : list (option Controller.Dish) :=
  [ dish "macaroni and cheese" two;
    Some (Controller.mkDish (VString "pizza") VUndefined);
    None ].

(** "pizza" followed by 196 spaces: 201 characters, 5 once trimmed. *)
Definition padded_pizza : string :=
  "pizza" +:+ string_of_list_ascii (replicate 196 " "%char).

(** Tap water: the energy entry is there and says 0 kcal. *)
Definition water_food : Food :=
  {| fdcId := Some 171881; food_description := "Water, tap";
     food_dataType := Some "SR Legacy";
     foodNutrients :=
       Array [ mkFoodNutrient (Some 208) None (Some "Energy")
                 (Some Number.zero) None (Some "KCAL") ];
     food_ingredients := None; foodComponents := None;
     food_servingSize := None; servingSizeUnit := None;
     food_brandOwner := None; food_score := None;
     other := ∅ |}.

(** The candidate made of it: its calories are 0. *)
Definition water : FoodItem := transform_food water_food.

Definition water_api : Upstream :=
  fun _ _ _ => (5, inl (mkSearchData (Some [water_food]))).

(** The world after a first resolution of two servings of macaroni. *)
Definition warm : World :=
  (FoodService.getCalories (provider macaroni_api)
     (VString "macaroni and cheese") (VNumber two) fresh).2.

(** An apple as a search answers it: the energy entry is flat and carries
    the identifier 1008, so that no calories are extracted, and the nutrient
    map has it under "energy". *)
Definition apple_food : Food :=
  {| fdcId := Some 171688; food_description := "Apples, raw, with skin";
     food_dataType := Some "SR Legacy";
     foodNutrients :=
       Array [ mkFoodNutrient (Some 1008) None (Some "Energy")
                 (Some (Finite (523 # 10))) None (Some "KCAL") ];
     food_ingredients := None; foodComponents := None;
     food_servingSize := None; servingSizeUnit := None;
     food_brandOwner := None; food_score := None;
     other := ∅ |}.


(** A food that comes with a "calories" property of its own and a
    nutrient list without energy entry. *)
Definition labelled_food : Food :=
  {| fdcId := Some 1; food_description := "Granola bar";
     food_dataType := Some "Branded";
     foodNutrients :=
       Array [ mkFoodNutrient (Some 203) None (Some "Protein")
                 (Some (Number.of_Z 6)) None (Some "G") ];
     food_ingredients := None; foodComponents := None;
     food_servingSize := None; servingSizeUnit := None;
     food_brandOwner := None; food_score := None;
     other := {[ "calories" := VNumber (Number.of_Z 190) ]} |}.

(** An upstream service that turns every request away with the status 429
    after 5 ms. *)
Definition busy_api : Upstream :=
  fun _ _ _ =>
    (5, inr {| response_status := Some 429;
               response_message := Some "Too many requests";
               error_message := Some "Request failed with status code 429" |}).

(** The energy of an apple twice, as the API lists it: in kcal, then in
    kJ, both under the name "Energy". *)
Definition kcal_entry : FoodNutrient :=
  mkFoodNutrient (Some 208) None (Some "Energy") (Some (Number.of_Z 52))
    None (Some "KCAL").

Definition kJ_entry : FoodNutrient :=
  mkFoodNutrient (Some 268) None (Some "Energy") (Some (Number.of_Z 218))
    None (Some "kJ").

(** The same dish four times. *)
Definition four_macaroni : list (option Controller.Dish) :=
  replicate 4 (dish "macaroni and cheese" two).

End Scenario.

(** ** Statements shared by the properties *)

(** A servings count the service accepts: [0 < s] and [s <= 50]. *)
Definition valid_servings (s : number) : Prop :=
  Number.lt Number.zero s = true /\ Number.le s (Number.of_Z 50) = true.

(** The result of the calorie arithmetic for a calorie value [c] and a
    servings count [s]. *)
Definition computes (c s : number) (r : CalorieResult) : Prop :=
  calories_per_serving r = c /\
  total_calories r = Number.round (Number.mul c s) /\
  servings r = s.

(** *** The precedence of the match selector *)

Section Precedence.

Import FoodService.

(** [x], at position [i], is the first element of [l] passing [test]. *)
Definition first_with (test : FoodItem -> bool) (l : list FoodItem)
    (i : nat) (x : FoodItem) : Prop :=
  l !! i = Some x /\ test x = true /\
  forall j y, l !! j = Some y -> (j < i)%nat -> test y = false.

Definition none_with (test : FoodItem -> bool) (l : list FoodItem) : Prop :=
  forall x, x ∈ l -> test x = false.

(** Rule 1 of the code: the first candidate whose description is the
    query, letter case apart, provided its calorie value is truthy. *)
Definition exact_with_calories (q : string) (l : list FoodItem) (i : nat)
  : Prop :=
  exists x, first_with (exact q) l i x /\ Js.truthy_num (calories x) = true.

Definition no_exact_with_calories (q : string) (l : list FoodItem) : Prop :=
  forall i, ~ exact_with_calories q l i.

(** The calorie value rule 4 assigns to the first candidate, if any. *)
Definition fallback (x : FoodItem) (l : list FoodItem) : list FoodItem :=
  match nutrients x !! "energy" with
  | Some e =>
      <[0%nat := set_calories
                   (Number.round (Number.or (nutrient_value e) Number.zero))
                   x]> l
  | None => l
  end.

(** [selection q l chosen after]: the position chosen among the candidates
    [l] for the query [q], and the candidates after the choice. *)
Inductive selection (q : string) (l : list FoodItem)
  : option nat -> list FoodItem -> Prop :=
| select_nothing :
    l = [] -> selection q l None l
| select_exact i :
    exact_with_calories q l i -> selection q l (Some i) l
| select_calories i x :
    no_exact_with_calories q l ->
    first_with has_calories l i x ->
    selection q l (Some i) l
| select_energy i x e :
    no_exact_with_calories q l ->
    none_with has_calories l ->
    first_with has_energy l i x ->
    nutrients x !! "energy" = Some e ->
    selection q l (Some i)
      (<[i := set_calories (Number.round (nutrient_value e)) x]> l)
| select_first x :
    no_exact_with_calories q l ->
    none_with has_calories l ->
    none_with has_energy l ->
    l !! 0%nat = Some x ->
    selection q l (Some 0%nat) (fallback x l).



(** Rule 1 as C2 words it: some candidate has the query as description,
    letter case apart, and a resolved calorie value. *)
Definition exact_and_resolved (q : string) (x : FoodItem) : Prop :=
  exact q x = true /\ is_Some (calories x).

End Precedence.

(** *** The outcomes of a batch *)

(** [batch_trace provider ds w results errors w']: handling the dishes [ds]
    one after the other from the world [w] ends in [w'], with [results] the
    results of the dishes that resolved and [errors] the records of those
    that did not, each list in the order of the dishes. *)
Inductive batch_trace (provider : FoodDataProvider)
  : list (option Controller.Dish) -> World -> list CalorieResult ->
    list Controller.Failure -> World -> Prop :=
| trace_done w :
    batch_trace provider [] w [] [] w
| trace_null ds w results errors w' :
    batch_trace provider ds w results errors w' ->
    batch_trace provider (None :: ds) w results
      (Controller.mkFailure None Controller.null_dish :: errors) w'
| trace_incomplete d ds w results errors w' :
    Js.truthy (Controller.body_dish_name d) = false \/
    Js.truthy (Controller.body_servings d) = false ->
    batch_trace provider ds w results errors w' ->
    batch_trace provider (Some d :: ds) w results
      (Controller.mkFailure (Some d) "dish_name and servings are required"
         :: errors)
      w'
| trace_resolved d ds w r w1 results errors w' :
    Js.truthy (Controller.body_dish_name d) = true ->
    Js.truthy (Controller.body_servings d) = true ->
    FoodService.getCalories provider (Controller.body_dish_name d)
      (Controller.body_servings d) w = (Return r, w1) ->
    batch_trace provider ds w1 results errors w' ->
    batch_trace provider (Some d :: ds) w (r :: results) errors w'
| trace_failed d ds w e w1 results errors w' :
    Js.truthy (Controller.body_dish_name d) = true ->
    Js.truthy (Controller.body_servings d) = true ->
    FoodService.getCalories provider (Controller.body_dish_name d)
      (Controller.body_servings d) w = (Throw e, w1) ->
    batch_trace provider ds w1 results errors w' ->
    batch_trace provider (Some d :: ds) w results
      (Controller.mkFailure (Some d) (FoodService.message e) :: errors) w'.

(** *** Input validation *)

Section ValidationStatements.

Import FoodService.

(** The messages of the errors [_validateInput] throws. *)
Definition name_required : string :=
  "Dish name is required and must be a non-empty string".
Definition servings_positive : string :=
  "Servings must be a positive number".
Definition servings_maximum : string :=
  "Maximum 50 servings allowed".
Definition name_too_long : string :=
  "Dish name too long (maximum 200 characters)".

Definition validation_messages : list string :=
  [name_required; servings_positive; servings_maximum; name_too_long].

(** A validation error is an error thrown with one of these messages. *)
Definition is_validation_error (e : ServiceError) : Prop :=
  originalError e ∈ validation_messages.

(** The servings are not a number within [0 < s <= 50]. *)
Definition servings_invalid (servings : value) : Prop :=
  match servings with
  | VNumber s => ~ valid_servings s
  | _ => True
  end.

(** The invalid inputs as C4 words them: the length is that of the trimmed
    name. *)
Definition invalid_as_stated (dishName servings : value) : Prop :=
  match dishName with
  | VString d =>
      JsString.trim d = "" \/ (200 < JsString.length (JsString.trim d))%nat
  | _ => True
  end \/ servings_invalid servings.

(** The invalid inputs of the code: the length is that of the name as
    given. *)
Definition invalid (dishName servings : value) : Prop :=
  match dishName with
  | VString d => JsString.trim d = "" \/ (200 < JsString.length d)%nat
  | _ => True
  end \/ servings_invalid servings.

(** The message [m] names a violation the input commits. *)
Definition names_violation (dishName servings : value) (m : string) : Prop :=
  (m = name_required /\
   match dishName with VString d => JsString.trim d = "" | _ => True end) \/
  (m = servings_positive /\
   match servings with
   | VNumber s => Number.lt Number.zero s = false
   | _ => True
   end) \/
  (m = servings_maximum /\
   exists s, servings = VNumber s /\ Number.gt s (Number.of_Z 50) = true) \/
  (m = name_too_long /\
   exists d, dishName = VString d /\ (200 < JsString.length d)%nat).

End ValidationStatements.

(** *** The ways a resolution can go *)

(** Whether the selected candidate lets [getCalories] go on. *)
Definition usable (best : option FoodItem) : bool :=
  match best with
  | Some item => Js.truthy_num (calories item)
  | None => false
  end.

(** [computation provider d s w1 answer outcome w']: what follows a cache
    miss, from the answer to the search received in the world [w1]. *)
Inductive computation (provider : FoodDataProvider) (d : string) (s : number)
    (w1 : World)
  : completion Error (list FoodItem) ->
    completion FoodService.ServiceError CalorieResult -> World -> Prop :=
| comp_search_failed m :
    computation provider d s w1 (Throw m)
      (Throw (FoodService._handleError m)) w1
| comp_nothing_found :
    computation provider d s w1 (Return [])
      (Throw (FoodService._handleError "Dish not found")) w1
| comp_no_calories l :
    l <> [] ->
    usable (FoodService.bestMatch d l) = false ->
    computation provider d s w1 (Return l)
      (Throw (FoodService._handleError
                "Dish not found or calorie information unavailable")) w1
| comp_calculate_failed l best m :
    l <> [] ->
    FoodService.bestMatch d l = Some best ->
    Js.truthy_num (calories best) = true ->
    calculateCalories provider (Some best) s = Throw m ->
    computation provider d s w1 (Return l)
      (Throw (FoodService._handleError m)) w1
| comp_stored l best r :
    l <> [] ->
    FoodService.bestMatch d l = Some best ->
    Js.truthy_num (calories best) = true ->
    calculateCalories provider (Some best) s = Return r ->
    let result :=
      FoodService.add_metadata r (length l) (score best) (clock w1) in
    computation provider d s w1 (Return l) (Return result)
      (FoodService.after_set w1 (FoodService._generateCacheKey d s) result).

(** [resolution provider dishName servings w outcome w']: one case for each
    way out of [getCalories]. *)
Inductive resolution (provider : FoodDataProvider)
    (dishName servings : value) (w : World)
  : completion FoodService.ServiceError CalorieResult -> World -> Prop :=
| res_invalid m :
    FoodService._validateInput dishName servings = Throw m ->
    resolution provider dishName servings w
      (Throw (FoodService._handleError m)) w
| res_hit d s r :
    FoodService._validateInput dishName servings = Return (d, s) ->
    NodeCache.get (cache w) (clock w) (FoodService._generateCacheKey d s)
    = Some r ->
    resolution provider dishName servings w (Return r) w
| res_miss d s elapsed answer outcome w' :
    FoodService._validateInput dishName servings = Return (d, s) ->
    NodeCache.get (cache w) (clock w) (FoodService._generateCacheKey d s)
    = None ->
    searchFood provider (clock w) (calls w) d FoodService.page_of_ten
    = (elapsed, answer) ->
    computation provider d s
      (FoodService.after_search
         (FoodService.after_get w (FoodService._generateCacheKey d s))
         elapsed d FoodService.page_of_ten)
      answer outcome w' ->
    resolution provider dishName servings w outcome w'.

(** *** Energy entries *)

(** [sub] occurs in [s]. *)
Definition contains (sub s : string) : Prop :=
  exists pre post, s = pre +:+ sub +:+ post.

(** An entry of a nutrient list that stands for the energy: it carries the
    identifier 208, itself or in its nested nutrient, or the name of its
    nested nutrient contains "energy", letter case apart. *)
Definition energy_entry (n : USDAProvider.FoodNutrient) : Prop :=
  USDAProvider.nutrientId n = Some 208 \/
  exists r,
    USDAProvider.nutrient n = Some r /\
    (USDAProvider.ref_id r = Some 208 \/
     exists text,
       USDAProvider.ref_name r = Some text /\
       contains "energy" (JsString.toLowerCase text)).

(** [n] is the first energy entry of [entries]. *)
Definition first_energy_entry (entries : list USDAProvider.FoodNutrient)
    (n : USDAProvider.FoodNutrient) : Prop :=
  exists i,
    entries !! i = Some n /\ energy_entry n /\
    forall j m, entries !! j = Some m -> (j < i)%nat -> ~ energy_entry m.

(** *** Failures and the cache *)

(** The messages with which [getCalories] reports that nothing usable was
    found. *)
Definition not_found_messages : list string :=
  ["Dish not found"; "Dish not found or calorie information unavailable"].

Definition is_not_found_error (e : FoodService.ServiceError) : Prop :=
  FoodService.originalError e ∈ not_found_messages.

(** The world [w] at a later reading [t] of the clock, nothing else having
    happened. *)
Definition at_time (t : Z) (w : World) : World :=
  {| clock := t; cache := cache w; calls := calls w |}.

(** *** Failures of the upstream service *)

(** The status [_handleError] goes by: that of the response, 500 when there
    is no response or no status. *)
Definition status_of (error : USDAProvider.AxiosError) : Z :=
  match USDAProvider.response_status error with
  | Some s => if s =? 0 then 500 else s
  | None => 500
  end.

(** The detail it reports: the message of the response body, else that of
    the error, else "Unknown error". *)
Definition detail_of (error : USDAProvider.AxiosError) : string :=
  match USDAProvider.response_message error,
        USDAProvider.error_message error with
  | Some m, other =>
      if JsString.truthy m then m
      else match other with
           | Some m' => if JsString.truthy m' then m' else "Unknown error"
           | None => "Unknown error"
           end
  | None, Some m' => if JsString.truthy m' then m' else "Unknown error"
  | None, None => "Unknown error"
  end.

(** The messages the USDA provider throws, but for those that start with
    "USDA API error: ". *)
Definition usda_messages : list string :=
  [ "Invalid USDA API key"; "USDA API access denied";
    "USDA API rate limit exceeded"; "USDA API service unavailable" ].

(** The messages an error of [getCalories] can have started as, with the
    USDA provider. *)
Definition known_origin (m : string) : Prop :=
  m ∈ validation_messages \/ m ∈ not_found_messages \/ m ∈ usda_messages \/
  exists detail, m = "USDA API error: " +:+ detail.

(** *** The tests of [calculateCalories] *)

(** A calorie value that counts as missing: none, NaN or zero. *)
Definition missing (o : option number) : Prop :=
  o = None \/ o = Some NaN \/ exists q, o = Some (Finite q) /\ (q == 0)%Q.

(** A number above zero: the positive infinity or a finite value above 0. *)
Definition above_zero (s : number) : Prop :=
  s = Infinity false \/ exists q, s = Finite q /\ (0 < q)%Q.

(** The names a plain object inherits: looked up in the error table, they
    would not give a string. *)
Definition inherited : list string :=
  [ "constructor"; "__defineGetter__"; "__defineSetter__"; "hasOwnProperty";
    "__lookupGetter__"; "__lookupSetter__"; "isPrototypeOf";
    "propertyIsEnumerable"; "toString"; "valueOf"; "__proto__";
    "toLocaleString" ].

(** Where an error of [getCalories] comes from, with the USDA provider
    over [api]: the validation threw [m]; or the input was valid and [m] is
    a not-found message; or the input was valid and [m] is what the
    provider made of a rejected search. *)
Definition origin (api : USDAProvider.Upstream) (dishName servings : value)
    (w : World) (m : string) : Prop :=
  FoodService._validateInput dishName servings = Throw m \/
  exists d s,
    FoodService._validateInput dishName servings = Return (d, s) /\
    (m ∈ not_found_messages \/
     exists elapsed error,
       api (clock w)
         (map (fun c => USDAProvider.search_params c.1 c.2) (calls w))
         (USDAProvider.search_params d FoodService.page_of_ten)
       = (elapsed, inr error) /\
       m = USDAProvider._handleError error).

(** *** Spellings of a dish name *)

(** A string of white space only. *)
Fixpoint blank (s : string) : bool :=
  match s with
  | EmptyString => true
  | String c r => JsString.is_space c && blank r
  end.

(** Every character of [s] passes [test]. *)
Fixpoint every (test : ascii -> bool) (s : string) : bool :=
  match s with
  | EmptyString => true
  | String a r => test a && every test r
  end.

(** A decimal digit. *)
Definition is_digit (c : ascii) : bool :=
  let n := nat_of_ascii c in ((48 <=? n) && (n <=? 57))%nat.

(** *** The nutrient map *)

(** The key under which [_extractNutrients] files an entry: the name of the
    nested nutrient if there is one, else the flat name, lower-cased; none
    for an entry without name. *)
Definition nutrient_key (n : USDAProvider.FoodNutrient) : option string :=
  match match USDAProvider.nutrient n with
        | Some r => USDAProvider.ref_name r
        | None => USDAProvider.nutrientName n
        end with
  | Some text =>
      if JsString.truthy text then Some (JsString.toLowerCase text) else None
  | None => None
  end.

(** What it files: the value, or the amount when the value is missing or
    zero, or 0, and the unit. *)
Definition nutrient_of (n : USDAProvider.FoodNutrient) : Nutrient :=
  {| nutrient_value :=
       Js.or_zero (USDAProvider.value n) (USDAProvider.amount n);
     nutrient_unit :=
       match USDAProvider.nutrient n with
       | Some r => USDAProvider.ref_unitName r
       | None => USDAProvider.unitName n
       end |}.

(** A whole number or an infinity. *)
Definition whole_or_infinite (c : number) : Prop :=
  (exists negative, c = Infinity negative) \/ exists z, c = Number.of_Z z.

(** *** Dishes of a batch that reach the provider or the cache *)

(** An element of a batch that is an object with truthy fields that pass
    the validation of [getCalories]. *)
Definition accepted (element : option Controller.Dish) : bool :=
  match element with
  | Some d =>
      Js.truthy (Controller.body_dish_name d)
      && Js.truthy (Controller.body_servings d)
      && match FoodService._validateInput (Controller.body_dish_name d)
                 (Controller.body_servings d) with
         | Return _ => true
         | Throw _ => false
         end
  | None => false
  end.

(** *** Results that hold together *)

(** A result of the USDA provider: a calorie value that counts, a servings
    count the service accepts, and the total their rounded product. *)
Definition coherent (r : CalorieResult) : Prop :=
  Number.truthy (calories_per_serving r) = true /\
  valid_servings (servings r) /\
  total_calories r
  = Number.round (Number.mul (calories_per_serving r) (servings r)) /\
  source r = name USDAProvider.info.

(** A world whose cache holds coherent results only. *)
Definition sound (w : World) : Prop :=
  forall key e,
    NodeCache.data (cache w) !! key = Some e -> coherent (NodeCache.v e).

(** * Properties *)

(** ** Numbers *)

Section NumberFacts.

Lemma Finite_lt (p q : Q) :
  Number.lt (Finite p) (Finite q) = true <-> (p < q)%Q.
Proof.
  unfold Number.lt. rewrite Qlt_alt.
  destruct (p ?= q)%Q; split; congruence.
Qed.

Lemma Finite_eq (p q : Q) :
  Number.eq (Finite p) (Finite q) = true <-> (p == q)%Q.
Proof. unfold Number.eq. apply Qeq_bool_iff. Qed.

Lemma Finite_le (p q : Q) :
  Number.le (Finite p) (Finite q) = true <-> (p <= q)%Q.
Proof.
  unfold Number.le. rewrite orb_true_iff, Finite_lt, Finite_eq.
  rewrite Qle_lteq. tauto.
Qed.

Lemma Finite_truthy (q : Q) :
  Number.truthy (Finite q) = true <-> ~ (q == 0)%Q.
Proof.
  unfold Number.truthy, Qeq. simpl. rewrite negb_true_iff, Z.eqb_neq. lia.
Qed.

(** A number above zero is truthy and is not [<= 0]. *)
Lemma positive_passes (s : number) :
  Number.lt Number.zero s = true ->
  Number.truthy s = true /\ Number.le s Number.zero = false.
Proof.
  destruct s as [|[]|q]; try discriminate; [by split|].
  unfold Number.zero, Number.of_Z. intros H%Finite_lt. split.
  - apply Finite_truthy. intros E. rewrite E in H.
    by apply Qlt_irrefl in H.
  - apply not_true_is_false. intros L%Finite_le.
    apply (Qlt_irrefl 0). by eapply Qlt_le_trans.
Qed.

(** Conversely, what passes both tests is above zero. *)
Lemma passes_positive (s : number) :
  Number.truthy s = true -> Number.le s Number.zero = false ->
  Number.lt Number.zero s = true.
Proof.
  destruct s as [|[]|q]; try discriminate; [done|].
  unfold Number.zero, Number.of_Z. intros _ L. apply Finite_lt.
  apply Qnot_le_lt. intros H. apply Finite_le in H. congruence.
Qed.

(** [Math.round] of a finite value is the integer [z] with
    [z - 1/2 <= q < z + 1/2]. *)
Lemma round_nearest (q : Q) :
  exists z : Z,
    Number.round (Finite q) = Number.of_Z z /\
    (inject_Z z - (1 # 2) <= q)%Q /\ (q < inject_Z z + (1 # 2))%Q.
Proof.
  exists (Qfloor (q + (1 # 2))). split; [done|].
  pose proof (Qfloor_le (q + (1 # 2))) as Hlo.
  pose proof (Qlt_floor (q + (1 # 2))) as Hhi.
  rewrite inject_Z_plus in Hhi. simpl inject_Z in Hhi at 2. split.
  - apply (Qplus_le_l _ _ (1 # 2)). by ring_simplify.
  - apply (Qplus_lt_l _ _ (1 # 2)).
    eapply Qlt_le_trans; [exact Hhi|].
    apply Qle_lteq. right. ring.
Qed.

End NumberFacts.

(** ** The paths through [getCalories] *)

Lemma length_nonzero {A} (l : list A) :
  l <> [] -> (length l =? 0)%nat = false.
Proof. by destruct l. Qed.

Section GetCaloriesPaths.

Import FoodService.

Variable provider : FoodDataProvider.

(** A hit leaves the cache as it is. *)
Lemma checked_hit (c : NodeCache.Cache) (t : Z) (key : string)
    (r : CalorieResult) :
  NodeCache.get c t key = Some r -> NodeCache.checked c t key = c.
Proof.
  unfold NodeCache.get, NodeCache.checked.
  destruct (NodeCache.data c !! key) as [e|]; [|done].
  by destruct (NodeCache.alive t e).
Qed.

Lemma after_get_hit (w : World) (key : string) (r : CalorieResult) :
  NodeCache.get (cache w) (clock w) key = Some r -> after_get w key = w.
Proof.
  intros H. unfold after_get. rewrite (checked_hit _ _ _ _ H).
  by destruct w.
Qed.

(** [getCalories] goes one of the ways of [resolution]. *)
Lemma getCalories_resolution (dishName servings : value) (w : World) :
  resolution provider dishName servings w
    (getCalories provider dishName servings w).1
    (getCalories provider dishName servings w).2.
Proof.
  unfold getCalories, getCalories_body, bind, lift, cache_get.
  destruct (_validateInput dishName servings) as [[d s]|m] eqn:Hv;
    [|by apply res_invalid].
  destruct (NodeCache.get (cache w) (clock w) (_generateCacheKey d s))
    as [r|] eqn:Hc.
  { unfold ret. cbn [fst snd]. rewrite (after_get_hit _ _ _ Hc).
    by eapply res_hit. }
  unfold await_search. cbn [clock calls after_get].
  destruct (searchFood provider (clock w) (calls w) d page_of_ten)
    as [elapsed answer] eqn:Hs.
  eapply res_miss; [exact Hv|exact Hc|exact Hs|].
  destruct answer as [l|m]; [|apply comp_search_failed].
  destruct l as [|x l']; [apply comp_nothing_found|].
  cbn [length Nat.eqb]. set (l := x :: l').
  assert (l <> []) as Hne by done.
  destruct (bestMatch d l) as [best|] eqn:Hb;
    [|by apply comp_no_calories; [|rewrite Hb]].
  destruct (Js.truthy_num (calories best)) eqn:Hu; cbn [negb];
    [|by apply comp_no_calories; [|rewrite Hb]].
  unfold now, cache_set, ret.
  destruct (calculateCalories provider (Some best) s) as [r|m] eqn:Hcalc.
  - by apply comp_stored.
  - by eapply comp_calculate_failed.
Qed.

(** The same, for an outcome and a world that have a name. *)
Lemma getCalories_inv (dishName servings : value) (w : World) outcome w' :
  getCalories provider dishName servings w = (outcome, w') ->
  resolution provider dishName servings w outcome w'.
Proof.
  intros H. pose proof (getCalories_resolution dishName servings w) as R.
  by rewrite H in R.
Qed.

(** No two ways of [resolution] apply at once. *)
Lemma resolution_getCalories (dishName servings : value) (w : World)
    outcome w' :
  resolution provider dishName servings w outcome w' ->
  getCalories provider dishName servings w = (outcome, w').
Proof.
  intros R.
  unfold getCalories, getCalories_body, bind, lift, cache_get, await_search,
    now, cache_set, ret, throw.
  destruct R as [m Hv|d s r Hv Hc|d s elapsed answer outcome w' Hv Hc Hs C];
    rewrite Hv; [done|by rewrite Hc, (after_get_hit _ _ _ Hc)|].
  rewrite Hc. cbn [clock calls after_get]. rewrite Hs.
  destruct C as [m| |l Hne Hu|l best m Hne Hb Hu Hcalc|l best r Hne Hb Hu Hcalc];
    try done.
  - rewrite length_nonzero by done.
    destruct (bestMatch d l) as [best|]; [|done].
    simpl in Hu. by rewrite Hu.
  - rewrite length_nonzero, Hb, Hu by done. simpl. by rewrite Hcalc.
  - rewrite length_nonzero, Hb, Hu by done. simpl. by rewrite Hcalc.
Qed.

End GetCaloriesPaths.

(** ** What validation lets through *)

Section Validation.

Import FoodService.

Lemma not_lt_le (x y : number) :
  x <> NaN -> y <> NaN -> Number.lt y x = false -> Number.le x y = true.
Proof.
  intros Hx Hy. unfold Number.le.
  destruct x as [|[]|p], y as [|[]|q]; try done.
  intros H. apply orb_true_iff. rewrite Finite_lt, Finite_eq.
  apply Qle_lteq, Qnot_lt_le. intros L%Finite_lt. congruence.
Qed.

Lemma le_not_lt (x y : number) :
  Number.le x y = true -> Number.lt y x = false.
Proof.
  destruct x as [|[]|p], y as [|[]|q]; try done.
  intros L%Finite_le. apply not_true_is_false. intros H%Finite_lt.
  by apply Qle_not_lt in L.
Qed.

(** What [_validateInput] returns are its arguments, narrowed: a string
    that is not blank and has at most 200 characters, and a number in
    the accepted range. *)
Lemma validated (dishName servings : value) (d : string) (s : number) :
  _validateInput dishName servings = Return (d, s) ->
  dishName = VString d /\ servings = VNumber s /\
  JsString.trim d <> "" /\ (JsString.length d <= 200)%nat /\
  valid_servings s.
Proof.
  unfold _validateInput.
  destruct dishName as [| | |?|d'|]; try discriminate.
  destruct (negb _ || _) eqn:E1; [discriminate|].
  destruct servings as [| | |s'| |]; try discriminate.
  destruct (negb (Number.truthy s') || _) eqn:E2; [discriminate|].
  destruct (Number.gt s' _) eqn:E3; [discriminate|].
  destruct (200 <? _)%nat eqn:E4; [discriminate|].
  intros [= <- <-].
  apply orb_false_iff in E1 as [_ E1], E2 as [T%negb_false_iff L].
  apply Nat.eqb_neq in E1. apply Nat.ltb_ge in E4.
  repeat split; try done.
  - intros E. apply E1. unfold JsString.length. by rewrite E.
  - by apply passes_positive.
  - apply not_lt_le; [by destruct s'|done|exact E3].
Qed.

End Validation.

(** ** C1: the calorie arithmetic *)

Section CalorieArithmetic.

Import FoodService.

Lemma add_metadata_computes c s r n m stamp :
  computes c s r -> computes c s (add_metadata r n m stamp).
Proof. by intros (? & ? & ?). Qed.

(** With truthy calories and a valid servings count, [calculateCalories]
    returns. *)
Lemma calculateCalories_returns (item : FoodItem) (c s : number) :
  calories item = Some c ->
  Number.truthy c = true ->
  valid_servings s ->
  USDAProvider.calculateCalories (Some item) s
  = Return {| dish_name := description item;
              servings := s;
              calories_per_serving := c;
              total_calories := Number.round (Number.mul c s);
              source := "USDA FoodData Central";
              result_ingredients := ingredients item;
              result_nutrients := nutrients item;
              searchResults := None;
              matchScore := None;
              timestamp := None |}.
Proof.
  intros Hc Ht [Hpos Hmax].
  destruct (positive_passes s Hpos) as [Hs Hle].
  unfold USDAProvider.calculateCalories.
  rewrite Hc. simpl. by rewrite Ht, Hs, Hle.
Qed.

(** C1, as stated, fails for a resolved calorie value of zero: water
    has 0 kcal and one serving is a valid count, yet [calculateCalories]
    throws. *)
Lemma calculateCalories_rejects_zero :
  calories Scenario.water = Some Number.zero /\
  valid_servings Scenario.one /\
  ~ exists r,
      USDAProvider.calculateCalories (Some Scenario.water) Scenario.one
      = Return r /\
      computes Number.zero Scenario.one r.
Proof.
  split; [done|]. split; [done|]. by intros (r & H & _).
Qed.

(** C1 (amended): for every food whose calorie value [c] is resolved and
    truthy (neither zero nor NaN) and every servings count [s] with
    [0 < s <= 50], [calculateCalories] returns a result with
    [calories_per_serving = c] and [total_calories = Math.round (c * s)],
    the product being the binary64 one; and so does [getCalories] when it
    computes from that food. *)
Theorem calculateCalories_total (item : FoodItem) (c s : number) :
  calories item = Some c ->
  Number.truthy c = true ->
  valid_servings s ->
  (exists r,
      USDAProvider.calculateCalories (Some item) s = Return r /\
      computes c s r) /\
  (forall api dishName servings w d elapsed searchResults,
      _validateInput dishName servings = Return (d, s) ->
      NodeCache.get (cache w) (clock w) (_generateCacheKey d s) = None ->
      USDAProvider.searchFood api (clock w) (calls w) d page_of_ten
      = (elapsed, Return searchResults) ->
      bestMatch d searchResults = Some item ->
      exists r w',
        getCalories (USDAProvider.provider api) dishName servings w
        = (Return r, w') /\
        computes c s r).
Proof.
  intros Hc Ht Hs.
  pose proof (calculateCalories_returns item c s Hc Ht Hs) as Hcalc.
  split; [by eexists|].
  intros api dishName servings w d elapsed searchResults Hv Hm Ha Hb.
  assert (searchResults <> []) as Hne.
  { intros ->. discriminate Hb. }
  eexists _, _. split.
  - apply resolution_getCalories.
    eapply res_miss; [exact Hv|exact Hm|exact Ha|].
    eapply comp_stored; [exact Hne|exact Hb| |exact Hcalc].
    by rewrite Hc.
  - by apply add_metadata_computes.
Qed.

Lemma calculateCalories_total_witness :
  calories Scenario.macaroni = Some (Number.of_Z 350) /\
  Number.truthy (Number.of_Z 350) = true /\
  valid_servings Scenario.two /\
  exists r,
    USDAProvider.calculateCalories (Some Scenario.macaroni) Scenario.two
    = Return r /\
    computes (Number.of_Z 350) Scenario.two r.
Proof.
  split; [reflexivity|]. split; [reflexivity|].
  split; [split; reflexivity|].
  apply (calculateCalories_total Scenario.macaroni (Number.of_Z 350)
           Scenario.two);
    [reflexivity|reflexivity|split; reflexivity].
Defined.

End CalorieArithmetic.

(** ** C2: the precedence of [_findBestMatch] *)

Section MatchSelector.

Import FoodService.

Lemma find_first (test : FoodItem -> bool) (l : list FoodItem) i x :
  find test l = Some (i, x) <-> first_with test l i x.
Proof.
  unfold find, first_with. rewrite list_find_Some.
  split; intros (Hl & Ht & Hn); (split; [done|]).
  - split; [by apply Is_true_true|].
    intros j y Hj Hlt. apply not_true_is_false. intros E.
    by apply (Hn j y Hj Hlt), Is_true_true.
  - split; [by apply Is_true_true|].
    intros j y Hj Hlt E%Is_true_true. by rewrite (Hn j y Hj Hlt) in E.
Qed.

Lemma find_none (test : FoodItem -> bool) (l : list FoodItem) :
  find test l = None <-> none_with test l.
Proof.
  unfold find, none_with. rewrite list_find_None, Forall_forall.
  split; intros H x Hx.
  - apply not_true_is_false. intros E. by apply (H x Hx), Is_true_true.
  - intros E%Is_true_true. by rewrite (H x Hx) in E.
Qed.

Lemma first_with_unique test l i x j y :
  first_with test l i x -> first_with test l j y -> i = j /\ x = y.
Proof.
  intros Hi%find_first Hj%find_first. rewrite Hi in Hj. by injection Hj.
Qed.

(** C2, as stated, fails: among [Scenario.pizzas] one candidate has the
    description of the query and a resolved calorie value, yet the
    candidate selected for "pizza" is "Pasta". *)
Lemma findBestMatch_ignores_later_exact :
  (exists x, x ∈ Scenario.pizzas /\ exact_and_resolved "pizza" x) /\
  exists chosen,
    bestMatch "pizza" Scenario.pizzas = Some chosen /\
    ~ exact_and_resolved "pizza" chosen.
Proof.
  split.
  - exists (Scenario.plain_item "Pizza" (Some (Number.of_Z 200))).
    split; [|split; [reflexivity|by eexists]].
    unfold Scenario.pizzas. set_solver.
  - exists (Scenario.plain_item "Pasta" (Some (Number.of_Z 100))).
    split; [reflexivity|]. by intros [E _].
Qed.


(** What [_findBestMatch] returns is related to its arguments by
    [selection]. *)
Lemma findBestMatch_selection (q : string) (l : list FoodItem) :
  selection q l (_findBestMatch q l).1 (_findBestMatch q l).2.
Proof.
  unfold _findBestMatch. destruct l as [|firstResult rest] eqn:El.
  { by constructor. }
  rewrite <- El.
  assert (l !! 0%nat = Some firstResult) as H0 by by rewrite El.
  clear El rest.
  destruct (find (exact q) l) as [[i x]|] eqn:E1.
  - apply find_first in E1.
    destruct (Js.truthy_num (calories x)) eqn:Ec.
    { simpl. apply select_exact. by exists x. }
    assert (no_exact_with_calories q l) as Hno.
    { intros j (y & Hy & Hc).
      destruct (first_with_unique _ _ _ _ _ _ E1 Hy) as [_ <-]. congruence. }
    destruct (find has_calories l) as [[j y]|] eqn:E2.
    { apply find_first in E2. by eapply select_calories. }
    apply find_none in E2.
    destruct (find has_energy l) as [[j y]|] eqn:E3.
    { apply find_first in E3. pose proof E3 as (Hj & He & _).
      unfold has_energy in He.
      destruct (nutrients y !! "energy") as [e|] eqn:Ee; [|done].
      by eapply select_energy. }
    apply find_none in E3. by apply select_first.
  - assert (no_exact_with_calories q l) as Hno.
    { intros j (y & Hy%find_first & Hc). congruence. }
    destruct (find has_calories l) as [[j y]|] eqn:E2.
    { apply find_first in E2. by eapply select_calories. }
    apply find_none in E2.
    destruct (find has_energy l) as [[j y]|] eqn:E3.
    { apply find_first in E3. pose proof E3 as (Hj & He & _).
      unfold has_energy in He.
      destruct (nutrients y !! "energy") as [e|] eqn:Ee; [|done].
      by eapply select_energy. }
    apply find_none in E3. by apply select_first.
Qed.

Lemma first_with_elem test l i x : first_with test l i x -> x ∈ l.
Proof. intros (H & _). by eapply list_elem_of_lookup_2. Qed.

Lemma first_not_none test l i x :
  first_with test l i x -> none_with test l -> False.
Proof.
  intros H Hn. pose proof (Hn x (first_with_elem _ _ _ _ H)) as E.
  destruct H as (_ & Ht & _). congruence.
Qed.

(** From a list that is not empty a position of the list is selected. *)
Lemma selection_position q l chosen after :
  selection q l chosen after -> l <> [] ->
  exists i x, chosen = Some i /\ l !! i = Some x.
Proof.
  intros [E|i (x & Hx & _)|i x _ Hx|i x e _ _ Hx _|x _ _ _ Hx] Hne;
    [done|..]; try (exists i, x; split; [done|apply Hx]).
  by exists 0%nat, x.
Qed.

(** Closes a goal whose hypotheses say that two different rules apply. *)
Ltac absurd_selection :=
  exfalso;
  match goal with
  | E : ?l = [], H : first_with _ ?l _ _ |- _ =>
      destruct H as [H _]; rewrite E in H; discriminate H
  | E : ?l = [], H : ?l !! _ = Some _ |- _ =>
      rewrite E in H; discriminate H
  | Hno : no_exact_with_calories ?q ?l,
    Hx : first_with (exact ?q) ?l ?i ?x |- _ =>
      apply (Hno i); exists x; by split
  | Hn : none_with ?t ?l, Hx : first_with ?t ?l _ _ |- _ =>
      exact (first_not_none _ _ _ _ Hx Hn)
  end.

(** At most one rule applies, and it selects one position. *)
Lemma selection_deterministic q l chosen after chosen' after' :
  selection q l chosen after -> selection q l chosen' after' ->
  chosen = chosen' /\ after = after'.
Proof.
  intros [E|i (x & Hx & Hc)|i x Hno Hx|i x e Hno Hnc Hx He|x Hno Hnc Hne Hx]
         [E'|i' (x' & Hx' & Hc')|i' x' Hno' Hx'|i' x' e' Hno' Hnc' Hx' He'
          |x' Hno' Hnc' Hne' Hx']; try done.
  all: try by absurd_selection.
  - by destruct (first_with_unique _ _ _ _ _ _ Hx Hx') as [-> _].
  - by destruct (first_with_unique _ _ _ _ _ _ Hx Hx') as [-> _].
  - destruct (first_with_unique _ _ _ _ _ _ Hx Hx') as [-> ->].
    rewrite He in He'. by injection He' as ->.
  - rewrite Hx in Hx'. by injection Hx' as ->.
Qed.

(** C2 (amended): an empty list selects nothing; from a list that is not
    empty exactly one candidate is selected, by the first of these rules
    that applies: (1) the first candidate whose description is the query,
    letter case apart, if its calorie value is truthy; (2) the first
    candidate whose calorie value is above 0; (3) the first candidate whose
    "energy" nutrient is above 0, which receives the rounded value as its
    calories; (4) the first candidate of the list, which receives the
    rounded "energy" value as calories when it has such a nutrient. *)
Theorem findBestMatch_precedence (q : string) (l : list FoodItem) :
  selection q l (_findBestMatch q l).1 (_findBestMatch q l).2 /\
  (forall chosen after,
     selection q l chosen after ->
     chosen = (_findBestMatch q l).1 /\ after = (_findBestMatch q l).2) /\
  (l <> [] ->
   exists i x, (_findBestMatch q l).1 = Some i /\ l !! i = Some x).
Proof.
  pose proof (findBestMatch_selection q l) as H.
  split; [done|]. split.
  - intros chosen after H'. by eapply selection_deterministic.
  - by eapply selection_position.
Qed.

End MatchSelector.

Lemma findBestMatch_precedence_witness :
  Scenario.pizzas <> [] /\
  exists i x,
    (FoodService._findBestMatch "pizza" Scenario.pizzas).1 = Some i /\
    Scenario.pizzas !! i = Some x.
Proof.
  split; [discriminate|].
  apply (findBestMatch_precedence "pizza" Scenario.pizzas). discriminate.
Defined.

(** ** C3: the batch handler *)

Section Batch.

Import Controller.

Variable provider : FoodDataProvider.

(** The loop appends to its accumulators what [batch_trace] lists. *)
Lemma batch_loop_trace (ds : list (option Dish)) :
  forall results0 errors0 w,
  exists results errors w',
    batch_loop provider ds (results0, errors0) w
    = ((results0 ++ results, errors0 ++ errors), w') /\
    batch_trace provider ds w results errors w'.
Proof.
  induction ds as [|[d|] ds IH]; intros results0 errors0 w.
  { exists [], [], w. rewrite !app_nil_r. split; [done|constructor]. }
  2: { cbn [batch_loop batch_step].
       destruct (IH results0 (errors0 ++ [mkFailure None null_dish]) w)
         as (results & errors & w' & -> & Htrace).
       eexists results, (_ :: errors), w'. rewrite <- app_assoc.
       split; [done|]. by apply trace_null. }
  cbn [batch_loop batch_step].
  destruct (negb (Js.truthy (body_dish_name d))
            || negb (Js.truthy (body_servings d))) eqn:Hreq.
  - destruct (IH results0
                (errors0 ++ [mkFailure (Some d)
                               "dish_name and servings are required"])
                w) as (results & errors & w' & -> & Htrace).
    eexists results, (_ :: errors), w'. rewrite <- app_assoc. split; [done|].
    apply trace_incomplete; [|done].
    apply orb_true_iff in Hreq as [H|H]; apply negb_true_iff in H; auto.
  - apply orb_false_iff in Hreq as [Hn%negb_false_iff Hs%negb_false_iff].
    destruct (FoodService.getCalories provider (body_dish_name d)
                (body_servings d) w) as [[r|e] w1] eqn:Hget.
    + destruct (IH (results0 ++ [r]) errors0 w1)
        as (results & errors & w' & -> & Htrace).
      exists (r :: results), errors, w'. rewrite <- app_assoc. split; [done|].
      by eapply trace_resolved.
    + destruct (IH results0
                  (errors0 ++ [mkFailure (Some d) (FoodService.message e)])
                  w1) as (results & errors & w' & -> & Htrace).
      eexists results, (_ :: errors), w'. rewrite <- app_assoc.
      split; [done|]. by eapply trace_failed.
Qed.

(** Every dish ends in exactly one of the two lists. *)
Lemma batch_trace_length ds w results errors w' :
  batch_trace provider ds w results errors w' ->
  (length results + length errors = length ds)%nat.
Proof. induction 1; simpl; lia. Qed.

(** C3: an empty batch and a batch of more than 10 dishes are refused with
    status 400 and touch nothing; a batch of [n] dishes, [1 <= n <= 10], is
    answered with status 200 after handling the dishes one after the other,
    a dish that fails giving a record with the dish and the message of its
    error, and [length results + length errors = n]. *)
Theorem getBatchCalories_partition (ds : list (option Dish)) (w : World) :
  (ds = [] \/ (10 < length ds)%nat ->
   exists message, getBatchCalories provider (Some ds) w
                   = (BadRequest 400 message, w)) /\
  ((1 <= length ds <= 10)%nat ->
   exists results errors w',
     getBatchCalories provider (Some ds) w
     = (Success 200 results errors
          {| total_requested := length ds;
             successful := length results;
             failed := length errors |}, w') /\
     batch_trace provider ds w results errors w' /\
     (length results + length errors = length ds)%nat).
Proof.
  split.
  - intros [->|Hmany]; [by eexists|].
    unfold getBatchCalories.
    destruct (length ds =? 0)%nat eqn:E0; [by eexists|].
    apply Nat.ltb_lt in Hmany. rewrite Hmany. by eexists.
  - intros [Hlo Hhi]. unfold getBatchCalories.
    destruct (length ds =? 0)%nat eqn:E0; [apply Nat.eqb_eq in E0; lia|].
    destruct (10 <? length ds)%nat eqn:E10; [apply Nat.ltb_lt in E10; lia|].
    destruct (batch_loop_trace ds [] [] w)
      as (results & errors & w' & -> & Htrace).
    exists results, errors, w'. simpl. split; [done|]. split; [done|].
    by eapply batch_trace_length.
Qed.

End Batch.

Lemma getBatchCalories_partition_witness :
  (1 <= length Scenario.three_dishes <= 10)%nat /\
  exists results errors w',
    Controller.getBatchCalories
      (USDAProvider.provider Scenario.macaroni_api)
      (Some Scenario.three_dishes) Scenario.fresh
    = (Controller.Success 200 results errors
         {| Controller.total_requested := length Scenario.three_dishes;
            Controller.successful := length results;
            Controller.failed := length errors |}, w') /\
    batch_trace (USDAProvider.provider Scenario.macaroni_api)
      Scenario.three_dishes Scenario.fresh results errors w' /\
    (length results + length errors = length Scenario.three_dishes)%nat.
Proof.
  split; [simpl; lia|].
  apply (getBatchCalories_partition
           (USDAProvider.provider Scenario.macaroni_api)
           Scenario.three_dishes Scenario.fresh).
  simpl; lia.
Defined.

(** ** C4: input validation *)

Section InputValidation.

Import FoodService.

Lemma trim_empty_length (d : string) :
  (JsString.length (JsString.trim d) =? 0)%nat = true <-> JsString.trim d = "".
Proof.
  rewrite Nat.eqb_eq. unfold JsString.length.
  by destruct (JsString.trim d).
Qed.

Lemma trim_falsy (d : string) : JsString.truthy d = false -> JsString.trim d = "".
Proof. by destruct d. Qed.

(** A servings count is rejected by one of the two tests exactly when it
    is outside [0 < s <= 50]. *)
Lemma servings_tests (s : number) :
  valid_servings s <->
  (negb (Number.truthy s) || Number.le s Number.zero) = false /\
  Number.gt s (Number.of_Z 50) = false.
Proof.
  unfold valid_servings, Number.gt. split.
  - intros [Hpos Hmax]. destruct (positive_passes s Hpos) as [-> ->].
    split; [done|]. by apply le_not_lt.
  - intros [[T%negb_false_iff L]%orb_false_iff G].
    split; [by apply passes_positive|].
    apply not_lt_le; [by destruct s|done|done].
Qed.

(** The error thrown names a violation of the input. *)
Lemma validateInput_reason (dishName servings : value) (m : Error) :
  _validateInput dishName servings = Throw m ->
  names_violation dishName servings m.
Proof.
  unfold _validateInput, names_violation.
  destruct dishName as [| | |?|d|]; try (intros [= <-]; by left).
  destruct (negb (JsString.truthy d)) eqn:Ed; cbn [orb].
  { intros [= <-]. left. split; [done|].
    apply trim_falsy. by apply negb_true_iff. }
  destruct (JsString.length (JsString.trim d) =? 0)%nat eqn:Et.
  { intros [= <-]. left. split; [done|]. by apply trim_empty_length. }
  destruct servings as [| | |s| |]; try (intros [= <-]; right; by left).
  destruct (negb (Number.truthy s) || Number.le s Number.zero) eqn:E2.
  { intros [= <-]. right; left. split; [done|].
    apply not_true_is_false. intros Hpos.
    destruct (positive_passes s Hpos) as [T L]. by rewrite T, L in E2. }
  destruct (Number.gt s (Number.of_Z 50)) eqn:E3.
  { intros [= <-]. right; right; left. split; [done|]. by exists s. }
  destruct (200 <? JsString.length d)%nat eqn:E4; [|done].
  intros [= <-]. right; right; right. split; [done|]. exists d.
  split; [done|]. by apply Nat.ltb_lt.
Qed.

(** [_validateInput] throws exactly on the invalid inputs of the code. *)
Lemma validateInput_throws_iff (dishName servings : value) :
  (exists m, _validateInput dishName servings = Throw m) <->
  invalid dishName servings.
Proof.
  split.
  - intros [m Hm]. apply validateInput_reason in Hm. unfold invalid.
    destruct Hm as [[_ H]|[[_ H]|[[_ (s & -> & H)]|[_ (d & -> & H)]]]].
    + left. destruct dishName; try done. by left.
    + right. destruct servings as [| | |s| |]; try done.
      intros [Hpos _]. simpl in *. congruence.
    + right. intros V%servings_tests. destruct V. congruence.
    + left. by right.
  - intros Hinv.
    destruct (_validateInput dishName servings) as [[d s]|m] eqn:Hv;
      [|by exists m].
    apply validated in Hv as (-> & -> & Ht & Hl & Hs).
    destruct Hinv as [[?|?]|?]; [done|lia|done].
Qed.

(** Refutes [H : m ∈ validation_messages] for a message [m] that is none
    of the four. *)
Ltac not_among H :=
  unfold validation_messages in H;
  rewrite !elem_of_cons, elem_of_nil in H;
  destruct H as [H|[H|[H|[H|[]]]]]; discriminate H.

(** The errors of the USDA provider are none of the validation errors. *)
Lemma usda_error_not_validation (error : USDAProvider.AxiosError) :
  USDAProvider._handleError error ∉ validation_messages.
Proof.
  unfold USDAProvider._handleError, validation_messages.
  repeat case_match; rewrite !elem_of_cons, elem_of_nil;
    intros [E|[E|[E|[E|[]]]]]; discriminate E.
Qed.

(** C4, as stated, fails on a name that is too long only before trimming:
    "pizza" followed by 196 spaces is at most 200 characters long once
    trimmed and one serving is a valid count, yet [getCalories] fails with a
    validation error. *)
Lemma getCalories_rejects_padded_name :
  ~ invalid_as_stated (VString Scenario.padded_pizza) (VNumber Scenario.one) /\
  exists e,
    getCalories (USDAProvider.provider Scenario.macaroni_api)
      (VString Scenario.padded_pizza) (VNumber Scenario.one) Scenario.fresh
    = (Throw e, Scenario.fresh) /\
    is_validation_error e.
Proof.
  split.
  - intros [[H|H]|H].
    + vm_compute in H. discriminate H.
    + vm_compute in H. lia.
    + apply H. by split.
  - eexists. split; [by vm_compute|].
    unfold is_validation_error, validation_messages. simpl.
    rewrite !elem_of_cons. auto.
Qed.

(** C4 (amended): [getCalories] fails with a validation error exactly when
    the dish name is not a string, is empty once trimmed or is longer than
    200 characters as given (before trimming), or the servings are not a
    number in [0 < s <= 50]; the error leaves the world as it was and its
    message names a violation the input commits. *)
Theorem getCalories_validation (api : USDAProvider.Upstream)
    (dishName servings : value) (w : World) :
  let out :=
    getCalories (USDAProvider.provider api) dishName servings w in
  (invalid dishName servings <->
   exists e, out.1 = Throw e /\ is_validation_error e) /\
  (forall e,
     out.1 = Throw e -> is_validation_error e ->
     out.2 = w /\ message e = originalError e /\
     names_violation dishName servings (message e)).
Proof.
  intros out.
  assert (forall m, _validateInput dishName servings = Throw m ->
                    m ∈ validation_messages) as Hin.
  { intros m Hm%validateInput_reason. unfold validation_messages.
    rewrite !elem_of_cons.
    destruct Hm as [[-> _]|[[-> _]|[[-> _]|[-> _]]]]; auto. }
  assert (forall m, m ∈ validation_messages -> _handleError m
            = {| message := m; originalError := m; service := "FoodService" |})
    as Hverbatim.
  { intros m. unfold validation_messages.
    rewrite !elem_of_cons, elem_of_nil. by intros [->|[->|[->|[->|[]]]]]. }
  assert (forall e, out.1 = Throw e -> is_validation_error e ->
            exists m, _validateInput dishName servings = Throw m /\
                      e = _handleError m /\ out.2 = w) as Hval.
  { intros e He Hv.
    pose proof (getCalories_resolution (USDAProvider.provider api)
                  dishName servings w) as R.
    fold out in R. rewrite He in R.
    inversion R as [m Hm Ho Hw|?|d s elapsed answer o w' Hm Hc Hs C Ho Hw].
    { by exists m. }
    exfalso. apply validated in Hm as (_ & _ & _ & _ & Hserv).
    unfold is_validation_error in Hv.
    inversion C as [m' Ha Ho' Hw'|Ha Ho' Hw'|l Hne Hu Ha Ho' Hw'
                    |l best m' Hne Hb Hu Hcalc Ha Ho' Hw'|];
      subst; simpl in Hv.
    - simpl in Hs. unfold USDAProvider.searchFood in Hs.
      destruct (api _ _ _) as [t [data|error]]; [discriminate Hs|].
      injection Hs as _ <-. by apply usda_error_not_validation in Hv.
    - by not_among Hv.
    - by not_among Hv.
    - change (USDAProvider.calculateCalories (Some best) s = Throw m')
        in Hcalc.
      destruct (calories best) as [c|] eqn:Ec; [|done].
      by rewrite (calculateCalories_returns best c s Ec Hu Hserv) in Hcalc. }
  split.
  - rewrite <- validateInput_throws_iff. split.
    + intros [m Hm]. exists (_handleError m). subst out.
      rewrite (resolution_getCalories _ _ _ _ _ _ (res_invalid _ _ _ w m Hm)).
      split; [done|]. unfold is_validation_error. simpl. by apply Hin.
    + intros (e & He & Hv). destruct (Hval e He Hv) as (m & Hm & _).
      by exists m.
  - intros e He Hv. destruct (Hval e He Hv) as (m & Hm & -> & Hw).
    rewrite (Hverbatim m (Hin m Hm)). simpl.
    split; [done|]. split; [done|]. by apply validateInput_reason.
Qed.

End InputValidation.

(** ** C5 and C10: what a cache miss leads to *)

Section CacheMiss.

Import FoodService.

(** The calorie values the acceptance tests take for missing: none, zero
    and NaN. *)
Lemma truthy_num_false (o : option number) :
  Js.truthy_num o = false <->
  o = None \/ o = Some NaN \/ exists q, o = Some (Finite q) /\ (q == 0)%Q.
Proof.
  destruct o as [[|b|q]|]; simpl.
  - split; auto.
  - split; [done|]. by intros [E|[E|(q & E & _)]].
  - split.
    + intros H. right; right. exists q. split; [done|].
      apply negb_false_iff, Z.eqb_eq in H. unfold Qeq. simpl. lia.
    + intros [E|[E|(q' & [= <-] & H)]]; try done.
      apply negb_false_iff, Z.eqb_eq. unfold Qeq in H. simpl in H. lia.
  - split; auto.
Qed.

(** C5, as stated, fails: the search for "water" finds one candidate, the
    candidate selected has a resolved calorie value, 0, and yet no result is
    produced. *)
Lemma getCalories_rejects_zero_calories :
  let w := Scenario.fresh in
  let provider := USDAProvider.provider Scenario.water_api in
  exists l best e w',
    NodeCache.get (cache w) (clock w)
      (_generateCacheKey "water" Scenario.one) = None /\
    searchFood provider (clock w) (calls w) "water" page_of_ten
    = (5, Return l) /\
    l <> [] /\
    bestMatch "water" l = Some best /\
    calories best = Some Number.zero /\
    getCalories provider (VString "water") (VNumber Scenario.one) w
    = (Throw e, w').
Proof.
  simpl. eexists _, _, _, _.
  split; [reflexivity|]. split; [reflexivity|]. split; [discriminate|].
  split; [by vm_compute|]. split; [reflexivity|]. by vm_compute.
Qed.

(** C5 (amended): on a cache miss, [getCalories] fails with a not-found
    error when the search returns an empty list, and when the calorie value
    of the selected candidate is missing, 0 or NaN; it fails with the error
    of the provider when the search fails; in every other case it returns a
    result. *)
Theorem getCalories_miss (api : USDAProvider.Upstream)
    (dishName servings : value) (w : World)
    (d : string) (s : number) (elapsed : Z)
    (answer : completion Error (list FoodItem)) :
  _validateInput dishName servings = Return (d, s) ->
  NodeCache.get (cache w) (clock w) (_generateCacheKey d s) = None ->
  USDAProvider.searchFood api (clock w) (calls w) d page_of_ten
  = (elapsed, answer) ->
  let out := getCalories (USDAProvider.provider api) dishName servings w in
  match answer with
  | Throw m => out.1 = Throw (_handleError m)
  | Return [] => exists e, out.1 = Throw e /\ is_not_found_error e
  | Return l =>
      if usable (bestMatch d l)
      then exists r, out.1 = Return r
      else exists e, out.1 = Throw e /\ is_not_found_error e
  end.
Proof.
  intros Hv Hc Hs out.
  assert (forall o w',
            computation (USDAProvider.provider api) d s
              (after_search (after_get w (_generateCacheKey d s)) elapsed d
                 page_of_ten) answer o w' ->
            out.1 = o) as Hout.
  { intros o w' C. unfold out.
    by rewrite (resolution_getCalories _ _ _ _ _ _
                  (res_miss (USDAProvider.provider api) dishName servings w
                     d s elapsed answer o w' Hv Hc Hs C)). }
  assert (forall m, m ∈ not_found_messages ->
                    is_not_found_error (_handleError m)) as Hnf by done.
  destruct answer as [[|x l']|m].
  - eexists. split; [eapply Hout, comp_nothing_found|].
    apply Hnf. unfold not_found_messages. rewrite !elem_of_cons. auto.
  - set (l := x :: l').
    destruct (usable (bestMatch d l)) eqn:Hu.
    + destruct (bestMatch d l) as [best|] eqn:Hb; [|done]. simpl in Hu.
      destruct (calories best) as [c|] eqn:Ec; [|done].
      apply validated in Hv as (_ & _ & _ & _ & Hserv).
      eexists. eapply Hout, comp_stored; [done|exact Hb|by rewrite Ec|].
      exact (calculateCalories_returns best c s Ec Hu Hserv).
    + eexists. split; [by eapply Hout, comp_no_calories|].
      apply Hnf. unfold not_found_messages. rewrite !elem_of_cons. auto.
  - eapply Hout, comp_search_failed.
Qed.

Lemma getCalories_miss_witness :
  exists r,
    (getCalories (USDAProvider.provider Scenario.macaroni_api)
       (VString "macaroni and cheese") (VNumber Scenario.two)
       Scenario.fresh).1 = Return r.
Proof.
  apply (getCalories_miss Scenario.macaroni_api
           (VString "macaroni and cheese") (VNumber Scenario.two)
           Scenario.fresh "macaroni and cheese" Scenario.two 5
           (Return [USDAProvider.transform_food Scenario.macaroni_food]));
    reflexivity.
Defined.

(** C10: when the calorie value of the selected candidate is 0, a valid
    request that misses the cache fails with the not-found error and no
    result is returned; [calculateCalories] refuses such a candidate with the
    error it has for a candidate without calorie value. *)
Theorem getCalories_zero_calories (provider : FoodDataProvider)
    (dishName servings : value) (w : World)
    (d : string) (s : number) (elapsed : Z)
    (l : list FoodItem) (best : FoodItem) (c : number) :
  _validateInput dishName servings = Return (d, s) ->
  NodeCache.get (cache w) (clock w) (_generateCacheKey d s) = None ->
  searchFood provider (clock w) (calls w) d page_of_ten
  = (elapsed, Return l) ->
  bestMatch d l = Some best ->
  calories best = Some c ->
  Number.eq c Number.zero = true ->
  getCalories provider dishName servings w
  = (Throw {| message := "Dish not found or calorie information unavailable";
              originalError :=
                "Dish not found or calorie information unavailable";
              service := "FoodService" |},
     after_search (after_get w (_generateCacheKey d s)) elapsed d
       page_of_ten) /\
  USDAProvider.calculateCalories (Some best) s
  = Throw "Invalid food item or missing calorie data" /\
  (forall other : FoodItem,
     calories other = None ->
     USDAProvider.calculateCalories (Some other) s
     = USDAProvider.calculateCalories (Some best) s).
Proof.
  intros Hv Hc Hs Hb Ec Hz.
  assert (Js.truthy_num (calories best) = false) as Hfalsy.
  { rewrite Ec. destruct c as [| |q]; try done.
    apply Finite_eq in Hz. apply truthy_num_false. right; right. by exists q. }
  assert (l <> []) as Hne by (intros ->; discriminate Hb).
  split; [|split].
  - apply resolution_getCalories.
    eapply res_miss; [exact Hv|exact Hc|exact Hs|].
    apply (comp_no_calories provider d s _ l Hne). by rewrite Hb.
  - unfold USDAProvider.calculateCalories. by rewrite Hfalsy.
  - intros other Ho. unfold USDAProvider.calculateCalories.
    by rewrite Ho, Hfalsy.
Qed.

Lemma getCalories_zero_calories_witness :
  getCalories (USDAProvider.provider Scenario.water_api)
    (VString "water") (VNumber Scenario.one) Scenario.fresh
  = (Throw {| message := "Dish not found or calorie information unavailable";
              originalError :=
                "Dish not found or calorie information unavailable";
              service := "FoodService" |},
     after_search Scenario.fresh 5 "water" page_of_ten).
Proof.
  apply (getCalories_zero_calories
           (USDAProvider.provider Scenario.water_api)
           (VString "water") (VNumber Scenario.one) Scenario.fresh
           "water" Scenario.one 5
           [USDAProvider.transform_food Scenario.water_food]
           (set_calories Number.zero
              (USDAProvider.transform_food Scenario.water_food))
           Number.zero);
    reflexivity.
Defined.

End CacheMiss.

(** ** C8: when the cache is written *)

Section CacheWrites.

Import FoodService.

Variable provider : FoodDataProvider.

(** C8, as stated, fails on a cache hit: the resolution succeeds and nothing
    is written. *)
Lemma getCalories_hit_writes_nothing :
  exists r w',
    getCalories (USDAProvider.provider Scenario.macaroni_api)
      (VString "macaroni and cheese") (VNumber Scenario.two)
      (at_time 2000 Scenario.warm)
    = (Return r, w') /\
    NodeCache.written (cache w') = NodeCache.written (cache Scenario.warm).
Proof. eexists _, _. split; by vm_compute. Qed.

(** What the lookup leaves of the cache: the log of the writes, the TTL,
    and every entry but a dead one under the key looked up. *)
Lemma checked_get (c : NodeCache.Cache) (now : Z) (key k : string) (t' : Z) :
  now <= t' ->
  NodeCache.get (NodeCache.checked c now key) t' k = NodeCache.get c t' k.
Proof.
  intros Hlater. unfold NodeCache.checked.
  destruct (NodeCache.data c !! key) as [e|] eqn:He; [|done].
  destruct (NodeCache.alive now e) eqn:Ha; [done|].
  unfold NodeCache.get, NodeCache.del. cbn [NodeCache.data].
  destruct (decide (k = key)) as [->|Hne].
  - rewrite lookup_delete_eq, He.
    assert (NodeCache.alive t' e = false) as ->; [|done].
    unfold NodeCache.alive in *.
    apply negb_false_iff, andb_true_iff in Ha as [H0 Hlt].
    apply negb_false_iff, andb_true_iff. split; [done|].
    apply Z.ltb_lt in Hlt. apply Z.ltb_lt. lia.
  - by rewrite lookup_delete_ne.
Qed.

Lemma checked_frame (c : NodeCache.Cache) (now : Z) (key : string) :
  NodeCache.written (NodeCache.checked c now key) = NodeCache.written c /\
  NodeCache.stdTTL (NodeCache.checked c now key) = NodeCache.stdTTL c /\
  forall e,
    <[key := e]> (NodeCache.data (NodeCache.checked c now key))
    = <[key := e]> (NodeCache.data c).
Proof.
  unfold NodeCache.checked.
  destruct (NodeCache.data c !! key) as [e0|]; [|done].
  destruct (NodeCache.alive now e0); [done|].
  split; [done|]. split; [done|]. intros e. cbn [NodeCache.del NodeCache.data].
  apply insert_delete_eq.
Qed.

(** C8 (amended): a call of [getCalories] that fails, whatever the failure,
    writes nothing to the cache: on invalid input it leaves the cache as it
    was, and otherwise as the lookup leaves it, that is without the entry of
    the request if that entry is dead, so that no later lookup can tell the
    difference; a call that succeeds either found its result in the cache
    and leaves the cache as it was, or missed the cache and makes exactly
    one write: the result it returns, under the key of the request. *)
Theorem getCalories_cache_writes (dishName servings : value) (w : World) :
  let out := getCalories provider dishName servings w in
  match out.1 with
  | Throw _ =>
      NodeCache.written (cache out.2) = NodeCache.written (cache w) /\
      NodeCache.stdTTL (cache out.2) = NodeCache.stdTTL (cache w) /\
      (forall k t',
         clock w <= t' ->
         NodeCache.get (cache out.2) t' k = NodeCache.get (cache w) t' k) /\
      match _validateInput dishName servings with
      | Throw _ => cache out.2 = cache w
      | Return (d, s) =>
          cache out.2
          = NodeCache.checked (cache w) (clock w) (_generateCacheKey d s)
      end
  | Return r =>
      exists d s,
        _validateInput dishName servings = Return (d, s) /\
        let key := _generateCacheKey d s in
        match NodeCache.get (cache w) (clock w) key with
        | Some cached => r = cached /\ cache out.2 = cache w
        | None =>
            NodeCache.written (cache out.2)
            = NodeCache.written (cache w) ++ [(key, r)] /\
            NodeCache.data (cache out.2)
            = <[key := NodeCache.mkEntry
                         (NodeCache.livetime (cache w) (clock out.2)) r]>
                (NodeCache.data (cache w)) /\
            NodeCache.stdTTL (cache out.2) = NodeCache.stdTTL (cache w)
        end
  end.
Proof.
  intros out.
  pose proof (getCalories_resolution provider dishName servings w) as R.
  fold out in R.
  destruct R as [m Hv|d s r Hv Hc|d s elapsed answer outcome w' Hv Hc Hs C].
  - rewrite Hv. by repeat split.
  - exists d, s. split; [done|]. simpl. by rewrite Hc.
  - set (key := _generateCacheKey d s) in *.
    destruct (checked_frame (cache w) (clock w) key) as (Hw & Ht & Hd).
    set (w1 := after_search (after_get w key) elapsed d page_of_ten) in *.
    assert (NodeCache.written (cache w1) = NodeCache.written (cache w) /\
            NodeCache.stdTTL (cache w1) = NodeCache.stdTTL (cache w) /\
            (forall k t',
               clock w <= t' ->
               NodeCache.get (cache w1) t' k = NodeCache.get (cache w) t' k) /\
            match _validateInput dishName servings with
            | Throw _ => cache w1 = cache w
            | Return (d, s) =>
                cache w1
                = NodeCache.checked (cache w) (clock w)
                    (_generateCacheKey d s)
            end) as Hfail.
    { rewrite Hv. unfold w1. cbn [cache after_search after_get].
      split; [done|]. split; [done|]. split; [|done].
      intros k t' Hlater. by apply checked_get. }
    destruct C as [m| |l Hne Hu|l best m Hne Hb Hu Hcalc
                   |l best r Hne Hb Hu Hcalc result];
      try exact Hfail.
    cbn [fst snd]. unfold w1.
    exists d, s. split; [done|]. fold key. rewrite Hc.
    cbn [cache after_set after_search after_get clock NodeCache.set
         NodeCache.written NodeCache.data NodeCache.stdTTL].
    rewrite Hw, Ht, Hd. split; [done|]. split; [|done].
    unfold NodeCache.livetime. by rewrite Ht.
Qed.

End CacheWrites.

(** ** C6: the cache key and repeated calls *)

Section RepeatedCalls.

Import FoodService.

Variable provider : FoodDataProvider.

(** C6, as stated, fails when the first call fails: nothing is stored, and
    the second call, made at once, sends a search of its own. *)
Lemma getCalories_failure_searches_again :
  let provider := USDAProvider.provider Scenario.empty_api in
  exists e1 w1 e2 w2,
    getCalories provider (VString "nonexistentdish123")
      (VNumber Scenario.one) Scenario.fresh = (Throw e1, w1) /\
    getCalories provider (VString "nonexistentdish123")
      (VNumber Scenario.one) w1 = (Throw e2, w2) /\
    (clock w1 <= clock w1 + NodeCache.stdTTL (cache w1) * 1000) /\
    length (calls w2) = (length (calls Scenario.fresh) + 2)%nat.
Proof. simpl. eexists _, _, _, _. repeat split; by vm_compute. Qed.

(** An entry written at [now] is alive until the TTL has passed. *)
Lemma set_get (c : NodeCache.Cache) (now t : Z) (key : string)
    (r : CalorieResult) :
  t <= now + NodeCache.stdTTL c * 1000 ->
  NodeCache.get (NodeCache.set c now key r) t key = Some r.
Proof.
  intros Ht. unfold NodeCache.get, NodeCache.set. simpl.
  rewrite lookup_insert_eq.
  unfold NodeCache.alive, NodeCache.livetime. simpl.
  destruct (NodeCache.stdTTL c =? 0) eqn:E0; [done|].
  replace (now + NodeCache.stdTTL c * 1000 <? t) with false; [|lia].
  by rewrite andb_false_r.
Qed.

(** C6 (amended): the cache key is "calories_", the lower-cased and trimmed
    dish name, "_" and the servings; and when a call that went to the
    provider succeeds, the same call repeated no later than the TTL after
    the first one returned is a cache hit: it returns the same result and
    changes nothing, so that the two calls issue exactly one search. *)
Theorem getCalories_repeated (dishName servings : value) (w w1 : World)
    (r : CalorieResult) (t : Z) :
  getCalories provider dishName servings w = (Return r, w1) ->
  calls w1 <> calls w ->
  t <= clock w1 + NodeCache.stdTTL (cache w1) * 1000 ->
  (forall d s,
     _generateCacheKey d s
     = "calories_" +:+ JsString.trim (JsString.toLowerCase d) +:+ "_"
         +:+ Number.toString s) /\
  getCalories provider dishName servings (at_time t w1)
  = (Return r, at_time t w1) /\
  length (calls (at_time t w1)) = S (length (calls w)).
Proof.
  intros H Hsent Ht. split; [done|].
  apply getCalories_inv in H.
  inversion H as [|d' s' r' Hv' Hc' Ho' Hw'
                  |d s elapsed answer outcome w' Hv Hc Hs C Ho' Hw'];
    subst; [done|].
  inversion C as [| | | |l best r0 Hne Hb Hu Hcalc result Ha Ho Hw]; subst.
  split.
  - apply resolution_getCalories. eapply res_hit; [exact Hv|].
    simpl. by apply set_get.
  - simpl. rewrite length_app. simpl. lia.
Qed.

End RepeatedCalls.

Lemma getCalories_repeated_witness :
  let provider := USDAProvider.provider Scenario.macaroni_api in
  exists r,
    FoodService.getCalories provider (VString "macaroni and cheese")
      (VNumber Scenario.two) Scenario.fresh = (Return r, Scenario.warm) /\
    FoodService.getCalories provider (VString "macaroni and cheese")
      (VNumber Scenario.two) (at_time 2000 Scenario.warm)
    = (Return r, at_time 2000 Scenario.warm).
Proof.
  simpl. eexists. split; [by vm_compute|].
  eapply (getCalories_repeated
            (USDAProvider.provider Scenario.macaroni_api)
            (VString "macaroni and cheese") (VNumber Scenario.two)
            Scenario.fresh Scenario.warm _ 2000).
  - by vm_compute.
  - by vm_compute.
  - by vm_compute.
Defined.

(** ** C9: what [_findBestMatch] changes *)

Section SelectorEffect.

Import FoodService.














End SelectorEffect.

(** ** C7: the extraction of calories *)

Section Extraction.

Import USDAProvider.

Lemma startsWith_spec (p s : string) :
  JsString.startsWith p s = true <-> exists post, s = p +:+ post.
Proof.
  revert s. induction p as [|a p IH]; intros s; simpl.
  { split; [by exists s|done]. }
  destruct s as [|b s].
  { split; [done|]. by intros [post H]. }
  destruct (Ascii.eqb a b) eqn:E.
  - apply Ascii.eqb_eq in E as ->. rewrite IH.
    split; intros [post H]; exists post.
    + by rewrite H.
    + by injection H.
  - split; [done|]. intros [post [= -> _]].
    by rewrite Ascii.eqb_refl in E.
Qed.

Lemma includes_spec (sub s : string) :
  JsString.includes sub s = true <-> contains sub s.
Proof.
  unfold contains. induction s as [|c r IH]; simpl.
  - rewrite orb_false_r, startsWith_spec. split.
    + intros [post H]. by exists "", post.
    + intros ([|? ?] & post & H); [by exists post|done].
  - rewrite orb_true_iff, startsWith_spec, IH. split.
    + intros [[post H]|(pre & post & H)].
      * by exists "", post.
      * exists (String c pre), post. simpl. by rewrite H.
    + intros ([|c' pre] & post & H).
      * left. by exists post.
      * right. exists pre, post. by injection H.
Qed.

Lemma is_energy_spec (n : FoodNutrient) :
  is_energy n = true <-> energy_entry n.
Proof.
  unfold is_energy, energy_entry. rewrite !orb_true_iff. split.
  - intros [[H|H]|H].
    + left. destruct (nutrientId n) as [i|]; [|done].
      by apply Z.eqb_eq in H as ->.
    + right. destruct (nutrient n) as [r|]; [|done]. exists r.
      split; [done|]. left. destruct (ref_id r) as [i|]; [|done].
      by apply Z.eqb_eq in H as ->.
    + right. destruct (nutrient n) as [r|]; [|done]. exists r.
      split; [done|]. right. destruct (ref_name r) as [text|]; [|done].
      exists text. split; [done|].
      apply andb_true_iff in H as [_ H]. by apply includes_spec.
  - intros [H|(r & Hr & [H|(text & Ht & H)])].
    + left; left. by rewrite H.
    + left; right. by rewrite Hr, H.
    + right. rewrite Hr, Ht. apply andb_true_iff.
      split; [|by apply includes_spec].
      destruct text; [|done]. by destruct H as ([|? ?] & ? & ?).
Qed.

Lemma find_energy_some (entries : list FoodNutrient) (n : FoodNutrient) :
  List.find is_energy entries = Some n <-> first_energy_entry entries n.
Proof.
  unfold first_energy_entry. induction entries as [|m entries IH]; simpl.
  { split; [done|]. by intros (i & H & _). }
  destruct (is_energy m) eqn:E.
  - split.
    + intros [= <-]. exists 0%nat. split; [done|].
      split; [by apply is_energy_spec|]. intros; lia.
    + intros ([|i] & Hi & He & Hn).
      * by injection Hi as ->.
      * exfalso. apply (Hn 0%nat m); [done|lia|by apply is_energy_spec].
  - rewrite IH. split.
    + intros (i & Hi & He & Hn). exists (S i). split; [done|].
      split; [done|]. intros [|j] m' Hj Hlt.
      * injection Hj as <-. intros H%is_energy_spec. congruence.
      * apply (Hn j); [done|lia].
    + intros ([|i] & Hi & He & Hn).
      * injection Hi as ->. apply is_energy_spec in He. congruence.
      * exists i. split; [done|]. split; [done|].
        intros j m' Hj Hlt. apply (Hn (S j)); [done|lia].
Qed.

Lemma find_energy_none (entries : list FoodNutrient) :
  List.find is_energy entries = None <->
  forall m, m ∈ entries -> ~ energy_entry m.
Proof.
  induction entries as [|m entries IH]; simpl.
  { split; [|done]. intros _ m H. by apply elem_of_nil in H. }
  destruct (is_energy m) eqn:E.
  - split; [done|]. intros H. exfalso.
    apply (H m); [by left|by apply is_energy_spec].
  - rewrite IH. split.
    + intros H m' [->|Hm]%elem_of_cons; [|by apply H].
      intros He%is_energy_spec. congruence.
    + intros H m' Hm. apply H. by right.
Qed.

(** C7, as stated, fails: a food with a "calories" property of its own and
    no energy entry gets no calories. *)
Lemma transform_ignores_calories_property :
  other Scenario.labelled_food !! "calories"
  = Some (VNumber (Number.of_Z 190)) /\
  calories (transform_food Scenario.labelled_food) = None.
Proof. split; by vm_compute. Qed.

(** C7 (amended): the calories of a food are extracted from its nutrient
    list alone, whatever other properties the food has.  With a list, they
    are the value of the first energy entry, or its amount when the value is
    missing or zero, or else 0, rounded to the nearest integer, halves going
    up; an energy entry is one with the identifier 208, itself or in its
    nested nutrient, or with a nested name containing "energy", letter case
    apart.  Without energy entry, and without list, there are no calories. *)
Theorem extractCalories_policy :
  (forall a b c n e f g h i j o o',
     calories (transform_food (mkFood a b c n e f g h i j o))
     = calories (transform_food (mkFood a b c n e f g h i j o')) /\
     calories (transform_food (mkFood a b c n e f g h i j o))
     = _extractCalories n) /\
  (forall entries n,
     first_energy_entry entries n ->
     _extractCalories (Array entries)
     = Some (Number.round (Js.or_zero (value n) (amount n))) /\
     forall q,
       Js.or_zero (value n) (amount n) = Finite q ->
       exists z : Z,
         _extractCalories (Array entries) = Some (Number.of_Z z) /\
         (inject_Z z - (1 # 2) <= q)%Q /\ (q < inject_Z z + (1 # 2))%Q) /\
  (forall entries,
     (forall m, m ∈ entries -> ~ energy_entry m) ->
     _extractCalories (Array entries) = None) /\
  _extractCalories Absent = None.
Proof.
  split; [done|]. split; [|split; [|done]].
  - intros entries n Hn%find_energy_some.
    assert (_extractCalories (Array entries)
            = Some (Number.round (Js.or_zero (value n) (amount n)))) as E.
    { unfold _extractCalories. by rewrite Hn. }
    split; [done|]. intros q Hq. rewrite E, Hq.
    destruct (round_nearest q) as (z & Hz & Hb). exists z. by rewrite Hz.
  - intros entries Hnone%find_energy_none.
    unfold _extractCalories. by rewrite Hnone.
Qed.

Lemma extractCalories_policy_witness :
  calories (transform_food Scenario.macaroni_food) = Some (Number.of_Z 350).
Proof.
  destruct extractCalories_policy as (_ & H & _).
  destruct (H [ mkFoodNutrient (Some 208) None (Some "Energy")
                  (Some (Finite (3499 # 10))) None (Some "KCAL") ]
              (mkFoodNutrient (Some 208) None (Some "Energy")
                 (Some (Finite (3499 # 10))) None (Some "KCAL"))) as [E _].
  - exists 0%nat. split; [done|]. split; [by left|]. intros; lia.
  - exact E.
Defined.

End Extraction.

(** * Further properties of the code *)

(** ** Binary64 arithmetic *)

Section Binary64.

Import Number.

Lemma pow2_pos (k : Z) : (0 < 2 ^ k)%Q.
Proof. by apply Qpower_0_lt. Qed.

Lemma pow2_add (a b : Z) : (2 ^ (a + b) == 2 ^ a * 2 ^ b)%Q.
Proof. by apply Qpower_plus. Qed.

Lemma pow2_le (a b : Z) : a <= b -> (2 ^ a <= 2 ^ b)%Q.
Proof. intros H. by apply Qpower_le_compat_l. Qed.

Lemma pow2_lt (a b : Z) : a < b -> (2 ^ a < 2 ^ b)%Q.
Proof. intros H. by apply Qpower_lt_compat_l. Qed.

Lemma pow2_Z (n : Z) : 0 <= n -> (inject_Z (2 ^ n) == 2 ^ n)%Q.
Proof. intros H. by rewrite Zpower_Qpower. Qed.

Lemma pow2_succ (a : Z) : (2 ^ (a + 1) == 2 * 2 ^ a)%Q.
Proof. rewrite pow2_add. change (2 ^ 1)%Q with 2%Q. ring. Qed.

Lemma floor_log2_spec (q : Q) :
  (0 < q)%Q -> (2 ^ floor_log2 q <= q)%Q /\ (q < 2 ^ (floor_log2 q + 1))%Q.
Proof.
  intros Hq. destruct q as [n d]. unfold floor_log2. cbn [Qnum Qden].
  assert (0 < n) as Hn.
  { unfold Qlt in Hq. simpl in Hq. lia. }
  set (a := Z.log2 n). set (b := Z.log2 (Z.pos d)).
  destruct (Z.log2_spec n Hn) as [Ha1 Ha2]. fold a in Ha1, Ha2.
  destruct (Z.log2_spec (Z.pos d) eq_refl) as [Hb1 Hb2]. fold b in Hb1, Hb2.
  assert (0 <= a) as Ha0 by apply Z.log2_nonneg.
  assert (0 <= b) as Hb0 by apply Z.log2_nonneg.
  assert (n # d == inject_Z n / inject_Z (Z.pos d))%Q as Eq by apply Qmake_Qdiv.
  assert (0 < inject_Z (Z.pos d))%Q as Hd by (rewrite <- (Zlt_Qlt 0); lia).
  assert ((n # d) * inject_Z (Z.pos d) == inject_Z n)%Q as Emul.
  { rewrite Eq. field. intros E. rewrite E in Hd. by apply Qlt_irrefl in Hd. }
  assert (2 ^ a <= inject_Z n)%Q as A1.
  { rewrite <- pow2_Z by done. by rewrite <- Zle_Qle. }
  assert (inject_Z n < 2 ^ (a + 1))%Q as A2.
  { rewrite <- pow2_Z by lia. rewrite <- Zlt_Qlt. by rewrite <- Z.add_1_r in Ha2. }
  assert (2 ^ b <= inject_Z (Z.pos d))%Q as B1.
  { rewrite <- pow2_Z by done. by rewrite <- Zle_Qle. }
  assert (inject_Z (Z.pos d) < 2 ^ (b + 1))%Q as B2.
  { rewrite <- pow2_Z by lia. rewrite <- Zlt_Qlt. by rewrite <- Z.add_1_r in Hb2. }
  (* the two outer bounds *)
  assert ((n # d) < 2 ^ (a - b + 1))%Q as Up.
  { apply (Qmult_lt_r _ _ (2 ^ b)); [apply pow2_pos|].
    rewrite <- pow2_add. replace (a - b + 1 + b) with (a + 1) by lia.
    eapply Qle_lt_trans; [|exact A2]. rewrite <- Emul.
    apply Qmult_le_l; [done|exact B1]. }
  assert (2 ^ (a - b - 1) <= (n # d))%Q as Lo.
  { apply (Qmult_le_r _ _ (2 ^ (b + 1))); [apply pow2_pos|].
    rewrite <- pow2_add. replace (a - b - 1 + (b + 1)) with a by lia.
    eapply Qle_trans; [exact A1|]. rewrite <- Emul.
    apply Qmult_le_l; [done|]. by apply Qlt_le_weak. }
  destruct (Qle_bool (2 ^ (a - b)) (n # d)) eqn:E.
  - apply Qle_bool_iff in E. by split.
  - split; [exact Lo|]. replace (a - b - 1 + 1) with (a - b) by lia.
    apply Qnot_le_lt. intros H. apply Qle_bool_iff in H. congruence.
Qed.

Lemma nearest_even_cases (q : Q) :
  let f := Qfloor q in
  (nearest_even q = f /\ (q - inject_Z f <= 1 # 2)%Q) \/
  (nearest_even q = f + 1 /\ (1 # 2 <= q - inject_Z f)%Q).
Proof.
  intros f. unfold nearest_even. fold f.
  destruct (q - inject_Z f ?= 1 # 2)%Q eqn:E.
  - apply Qeq_alt in E.
    destruct (Z.even f); [left|right]; (split; [done|]); lra.
  - left. split; [done|]. apply Qlt_alt in E. lra.
  - right. split; [done|]. apply Qgt_alt in E. lra.
Qed.

Lemma nearest_even_floor (q : Q) :
  Qfloor q <= nearest_even q <= Qfloor q + 1.
Proof. destruct (nearest_even_cases q) as [[-> _]|[-> _]]; lia. Qed.

Lemma nearest_even_near (q : Q) :
  (inject_Z (nearest_even q) - (1 # 2) <= q)%Q /\
  (q <= inject_Z (nearest_even q) + (1 # 2))%Q.
Proof.
  pose proof (Qfloor_le q) as Hlo. pose proof (Qlt_floor q) as Hhi.
  rewrite inject_Z_plus in Hhi. change (inject_Z 1) with 1%Q in Hhi.
  destruct (nearest_even_cases q) as [[-> H]|[-> H]].
  - split; lra.
  - rewrite inject_Z_plus. change (inject_Z 1) with 1%Q. split; lra.
Qed.

Lemma nearest_even_Z (z : Z) : nearest_even (inject_Z z) = z.
Proof.
  unfold nearest_even. rewrite Qfloor_Z.
  destruct (inject_Z z - inject_Z z ?= 1 # 2)%Q eqn:E; [| done |].
  - apply Qeq_alt in E. lra.
  - apply Qgt_alt in E. lra.
Qed.

Lemma nearest_even_comp (p q : Q) :
  (p == q)%Q -> nearest_even p = nearest_even q.
Proof.
  intros H. unfold nearest_even. rewrite (Qfloor_comp _ _ H).
  assert (p - inject_Z (Qfloor q) == q - inject_Z (Qfloor q))%Q as H'
    by (by rewrite H).
  by rewrite (Qcompare_comp _ _ H' _ _ (Qeq_refl _)).
Qed.

Lemma nearest_even_ge (z : Z) (q : Q) :
  (inject_Z z <= q)%Q -> z <= nearest_even q.
Proof.
  intros H. apply Qfloor_resp_le in H. rewrite Qfloor_Z in H.
  pose proof (nearest_even_floor q). lia.
Qed.

Lemma nearest_even_le (z : Z) (q : Q) :
  (q <= inject_Z z)%Q -> nearest_even q <= z.
Proof.
  intros H. pose proof H as Hf. apply Qfloor_resp_le in Hf.
  rewrite Qfloor_Z in Hf.
  destruct (nearest_even_cases q) as [[-> _]|[-> Hr]]; [done|].
  destruct (Z.eq_dec (Qfloor q) z) as [E|E]; [|lia].
  exfalso. rewrite E in Hr. lra.
Qed.

Lemma nearest_even_mono (p q : Q) :
  (p <= q)%Q -> nearest_even p <= nearest_even q.
Proof.
  intros H. pose proof (Qfloor_resp_le _ _ H) as Hf.
  pose proof (nearest_even_floor p) as Hp.
  pose proof (nearest_even_floor q) as Hq.
  destruct (Z.eq_dec (Qfloor p) (Qfloor q)) as [E|E]; [|lia].
  unfold nearest_even. rewrite E.
  destruct (p - inject_Z (Qfloor q) ?= 1 # 2)%Q eqn:E1;
    destruct (q - inject_Z (Qfloor q) ?= 1 # 2)%Q eqn:E2;
    try (destruct (Z.even (Qfloor q))); try lia; exfalso;
    repeat match goal with
           | H : (_ ?= _)%Q = Eq |- _ => apply Qeq_alt in H
           | H : (_ ?= _)%Q = Lt |- _ => apply Qlt_alt in H
           | H : (_ ?= _)%Q = Gt |- _ => apply Qgt_alt in H
           end; lra.
Qed.

Lemma exponent_spec (q : Q) :
  exponent q = floor_log2 q - 52 /\ -1074 <= exponent q \/
  exponent q = -1074 /\ floor_log2 q - 52 < -1074.
Proof. unfold exponent. lia. Qed.

Lemma scaled_back (q : Q) (e : Z) : (q / 2 ^ e * 2 ^ e == q)%Q.
Proof. field. pose proof (pow2_pos e). lra. Qed.

Lemma mantissa_bounds (q : Q) :
  (0 < q)%Q ->
  let m := nearest_even (q / 2 ^ exponent q) in
  0 <= m <= 2 ^ 53 /\ (-1074 < exponent q -> 2 ^ 52 <= m).
Proof.
  intros Hq m. pose proof (pow2_pos (exponent q)) as He.
  destruct (floor_log2_spec q Hq) as [Hlo Hhi].
  split; [split|].
  - apply nearest_even_ge. apply Qle_shift_div_l; [done|].
    change (inject_Z 0) with 0%Q. lra.
  - apply nearest_even_le. apply Qle_shift_div_r; [done|].
    rewrite pow2_Z by done. rewrite <- pow2_add.
    apply Qlt_le_weak. eapply Qlt_le_trans; [exact Hhi|].
    apply pow2_le. unfold exponent. lia.
  - intros Hn. apply nearest_even_ge. apply Qle_shift_div_l; [done|].
    rewrite pow2_Z by done. rewrite <- pow2_add.
    eapply Qle_trans; [|exact Hlo]. apply pow2_le. unfold exponent in *. lia.
Qed.

Lemma nearest_near (q : Q) :
  (nearest q - 2 ^ exponent q * (1 # 2) <= q)%Q /\
  (q <= nearest q + 2 ^ exponent q * (1 # 2))%Q.
Proof.
  unfold nearest. set (e := exponent q).
  pose proof (pow2_pos e) as He.
  destruct (nearest_even_near (q / 2 ^ e)) as [Hlo Hhi].
  set (m := inject_Z (nearest_even (q / 2 ^ e))) in *.
  apply (Qmult_le_r _ _ (2 ^ e)) in Hlo; [|done].
  apply (Qmult_le_r _ _ (2 ^ e)) in Hhi; [|done].
  rewrite scaled_back in Hlo, Hhi. split; lra.
Qed.

Lemma nearest_nonneg (q : Q) : (0 < q)%Q -> (0 <= nearest q)%Q.
Proof.
  intros Hq. destruct (mantissa_bounds q Hq) as [[H _] _].
  unfold nearest. apply Qmult_le_0_compat.
  - change 0%Q with (inject_Z 0). by rewrite <- Zle_Qle.
  - apply Qlt_le_weak, pow2_pos.
Qed.

Lemma floor_log2_mono (p q : Q) :
  (0 < p)%Q -> (p <= q)%Q -> floor_log2 p <= floor_log2 q.
Proof.
  intros Hp Hle.
  destruct (floor_log2_spec p Hp) as [Hlo _].
  destruct (floor_log2_spec q) as [_ Hhi]; [lra|].
  assert (2 ^ floor_log2 p < 2 ^ (floor_log2 q + 1))%Q as H by lra.
  apply Qpower_lt_compat_l_inv in H; [lia|done].
Qed.

Lemma nearest_mono (p q : Q) :
  (0 < p)%Q -> (p <= q)%Q -> (nearest p <= nearest q)%Q.
Proof.
  intros Hp Hle. assert (0 < q)%Q as Hq by lra.
  pose proof (floor_log2_mono p q Hp Hle) as Hfl.
  assert (exponent p <= exponent q) as He by (unfold exponent; lia).
  destruct (mantissa_bounds p Hp) as [[_ Hp53] _].
  destruct (mantissa_bounds q Hq) as [_ Hq52].
  unfold nearest.
  pose proof (pow2_pos (exponent p)) as Pp.
  pose proof (pow2_pos (exponent q)) as Pq.
  destruct (Z.eq_dec (exponent p) (exponent q)) as [E|E].
  - rewrite E. apply Qmult_le_compat_r; [|lra].
    rewrite <- Zle_Qle. apply nearest_even_mono.
    apply Qmult_le_compat_r; [done|]. apply Qlt_le_weak, Qinv_lt_0_compat.
    done.
  - apply (Qle_trans _ (inject_Z (2 ^ 53) * 2 ^ exponent p)).
    { apply Qmult_le_compat_r; [|lra]. by rewrite <- Zle_Qle. }
    apply (Qle_trans _ (inject_Z (2 ^ 52) * 2 ^ exponent q)).
    2: { apply Qmult_le_compat_r; [|lra]. rewrite <- Zle_Qle.
         apply Hq52. unfold exponent in *. lia. }
    rewrite !pow2_Z by done. rewrite <- !pow2_add. apply pow2_le. lia.
Qed.

Lemma nearest_Z (z : Z) :
  0 < z <= 2 ^ 53 -> (nearest (inject_Z z) == inject_Z z)%Q.
Proof.
  intros [Hlo Hhi].
  assert (0 < inject_Z z)%Q as Hq by (by rewrite <- (Zlt_Qlt 0)).
  destruct (floor_log2_spec _ Hq) as [Flo Fhi].
  assert (floor_log2 (inject_Z z) <= 53) as Hfl.
  { assert (2 ^ floor_log2 (inject_Z z) < 2 ^ 54)%Q as H.
    { eapply Qle_lt_trans; [exact Flo|].
      rewrite <- (pow2_Z 54) by done. rewrite <- Zlt_Qlt. lia. }
    apply Qpower_lt_compat_l_inv in H; [lia|done]. }
  assert (0 <= floor_log2 (inject_Z z)) as Hfl0.
  { assert (2 ^ 0 < 2 ^ (floor_log2 (inject_Z z) + 1))%Q as H.
    { eapply Qle_lt_trans; [|exact Fhi]. change (2 ^ 0)%Q with (inject_Z 1).
      rewrite <- Zle_Qle. lia. }
    apply (Qpower_lt_compat_l_inv 2 0) in H; [lia|done]. }
  unfold nearest.
  assert (exponent (inject_Z z) = floor_log2 (inject_Z z) - 52) as ->
    by (unfold exponent; lia).
  set (a := floor_log2 (inject_Z z)) in *.
  destruct (Z.eq_dec a 53) as [E|E].
  - (* z = 2^53 *)
    assert (z = 2 ^ 53) as ->.
    { rewrite E in Flo. rewrite <- (pow2_Z 53) in Flo by done.
      rewrite <- Zle_Qle in Flo. lia. }
    rewrite E. by vm_compute.
  - assert (inject_Z z / 2 ^ (a - 52) == inject_Z (z * 2 ^ (52 - a)))%Q as Ez.
    { rewrite inject_Z_mult, pow2_Z by lia.
      replace (a - 52) with (- (52 - a)) by lia. rewrite Qpower_opp.
      field. pose proof (pow2_pos (52 - a)). lra. }
    assert (nearest_even (inject_Z z / 2 ^ (a - 52)) = z * 2 ^ (52 - a))
      as ->.
    { rewrite (nearest_even_comp _ _ Ez). apply nearest_even_Z. }
    rewrite <- Ez. apply scaled_back.
Qed.

Lemma Qred_inject_Z (z : Z) : Qred (inject_Z z) = inject_Z z.
Proof.
  unfold Qred, inject_Z.
  pose proof (Z.ggcd_gcd z 1) as Hg.
  pose proof (Z.ggcd_correct_divisors z 1) as Hd.
  destruct (Z.ggcd z 1) as [g [n d]]. cbn [fst snd] in *.
  rewrite Z.gcd_1_r in Hg. subst g. destruct Hd as [-> Hd].
  assert (d = 1) as -> by lia. f_equal. lia.
Qed.

Lemma double_pos_Z (z : Z) :
  0 < z <= 2 ^ 53 -> double_pos (inject_Z z) = Finite (inject_Z z).
Proof.
  intros Hz. pose proof (nearest_Z z Hz) as E. unfold double_pos.
  assert (Qle_bool (2 ^ 1024) (nearest (inject_Z z)) = false) as ->.
  { apply not_true_is_false. intros H%Qle_bool_iff. rewrite E in H.
    rewrite <- (pow2_Z 1024) in H by done. rewrite <- Zle_Qle in H.
    assert (2 ^ 53 < 2 ^ 1024) by (by apply Z.pow_lt_mono_r). lia. }
  f_equal. rewrite (Qred_complete _ _ E). apply Qred_inject_Z.
Qed.

(** Integers up to [2 ^ 53] are binary64 numbers. *)
Lemma double_Z (z : Z) :
  Z.abs z <= 2 ^ 53 -> double (inject_Z z) = Finite (inject_Z z).
Proof.
  intros Hz. unfold double, sign. cbn [Qnum inject_Z].
  destruct (Z.compare_spec z 0) as [->|Hneg|Hpos].
  - done.
  - change (- inject_Z z)%Q with (inject_Z (- z)).
    rewrite double_pos_Z by lia. unfold neg.
    change (- inject_Z (- z))%Q with (inject_Z (- - z)).
    by rewrite Z.opp_involutive.
  - apply double_pos_Z. lia.
Qed.

(** The product of two integers is exact up to [2 ^ 53]. *)
Lemma mul_Z (k n : Z) :
  Z.abs (k * n) <= 2 ^ 53 ->
  mul (of_Z k) (of_Z n) = of_Z (k * n).
Proof.
  intros H. unfold mul, of_Z.
  change (inject_Z k * inject_Z n)%Q with (inject_Z (k * n)).
  by apply double_Z.
Qed.

Lemma sign_pos (q : Q) : (0 < q)%Q -> sign q = Gt.
Proof.
  unfold sign, Qlt. simpl. intros H. apply Z.compare_gt_iff. lia.
Qed.

(** The product of two numbers above 0. *)
Lemma mul_pos (p q : Q) :
  (0 < p)%Q -> (0 < q)%Q ->
  mul (Finite p) (Finite q) = double_pos (p * q).
Proof.
  intros Hp Hq. unfold mul, double. rewrite sign_pos; [done|].
  by apply Qmult_lt_0_compat.
Qed.

(** The rounding overflows from [2 ^ 1023] on only. *)
Lemma double_pos_overflow (q : Q) :
  (0 < q)%Q -> double_pos q = Infinity false -> (2 ^ 1023 <= q)%Q.
Proof.
  intros Hq. unfold double_pos.
  destruct (Qle_bool (2 ^ 1024) (nearest q)) eqn:E; [|done]. intros _.
  apply Qle_bool_iff in E.
  destruct (mantissa_bounds q Hq) as [[_ Hm] _].
  destruct (floor_log2_spec q Hq) as [Hlo _].
  pose proof (pow2_pos (exponent q)) as He.
  assert (2 ^ 1024 <= 2 ^ (53 + exponent q))%Q as H.
  { eapply Qle_trans; [exact E|]. unfold nearest.
    rewrite pow2_add, <- (pow2_Z 53) by done.
    apply Qmult_le_compat_r; [|lra]. by rewrite <- Zle_Qle. }
  apply Qpower_le_compat_l_inv in H; [|done].
  eapply Qle_trans; [|exact Hlo]. apply pow2_le. unfold exponent in H. lia.
Qed.

(** Up to [2 ^ 52] it is off by one half at most. *)
Lemma double_pos_near (q : Q) :
  (0 < q)%Q -> (q <= 2 ^ 52)%Q ->
  exists v, double_pos q = Finite v /\
            (0 <= v)%Q /\ (v - (1 # 2) <= q)%Q /\ (q <= v + (1 # 2))%Q.
Proof.
  intros Hq Hmax.
  destruct (floor_log2_spec q Hq) as [Hlo _].
  assert (exponent q <= 0) as He.
  { assert (2 ^ floor_log2 q < 2 ^ 53)%Q as H.
    { eapply Qle_lt_trans; [exact Hlo|]. eapply Qle_lt_trans; [exact Hmax|].
      by apply pow2_lt. }
    apply Qpower_lt_compat_l_inv in H; [|done]. unfold exponent. lia. }
  assert (2 ^ exponent q <= 1)%Q as He'.
  { change 1%Q with (2 ^ 0)%Q. by apply pow2_le. }
  pose proof (pow2_pos (exponent q)) as Hpos.
  destruct (nearest_near q) as [Nlo Nhi].
  pose proof (nearest_nonneg q Hq) as N0.
  exists (Qred (nearest q)). unfold double_pos.
  assert (Qle_bool (2 ^ 1024) (nearest q) = false) as ->.
  { apply not_true_is_false. intros H%Qle_bool_iff.
    assert (2 ^ 52 + 1 < 2 ^ 1024)%Q as Hbig by done. lra. }
  split; [done|]. rewrite !Qred_correct. split; [done|]. split; lra.
Qed.

(** Rounding keeps the order. *)
Lemma double_pos_mono (p q : Q) :
  (0 < p)%Q -> (p <= q)%Q -> le (double_pos p) (double_pos q) = true.
Proof.
  intros Hp Hle. pose proof (nearest_mono p q Hp Hle) as H.
  unfold double_pos.
  destruct (Qle_bool (2 ^ 1024) (nearest q)) eqn:Eq.
  - by destruct (Qle_bool (2 ^ 1024) (nearest p)).
  - destruct (Qle_bool (2 ^ 1024) (nearest p)) eqn:Ep.
    + exfalso. apply Qle_bool_iff in Ep.
      assert (Qle_bool (2 ^ 1024) (nearest q) = true) as C.
      { apply Qle_bool_iff. lra. }
      congruence.
    + apply Finite_le. by rewrite !Qred_correct.
Qed.

(** So does [Math.round]. *)
Lemma round_mono (x y : number) :
  le x y = true -> le (round x) (round y) = true.
Proof.
  destruct x as [|a|p], y as [|b|q]; try done.
  intros Hle%Finite_le. unfold round, of_Z. apply Finite_le.
  rewrite <- Zle_Qle. apply Qfloor_resp_le. lra.
Qed.

(** What the arithmetic does where the exact product is not a binary64
    number: 100 times 1.005 is below 100.5, 5 times 0.3 is 1.5, three times
    the largest odd integer is even, and 1e308 times 50 is out of range. *)
Lemma mul_rounds :
  round (mul (double 100) (double (1005 # 1000))) = of_Z 100 /\
  round (mul (double 5) (double (3 # 10))) = of_Z 2 /\
  mul (of_Z 9007199254740991) (of_Z 3) = of_Z 27021597764222972 /\
  mul (double (inject_Z (10 ^ 308))) (of_Z 50) = Infinity false.
Proof. repeat split; by vm_compute. Qed.

End Binary64.

(** ** [calculateCalories]: when it returns and what it computes *)

Section CalculateCalories.

(** A valid servings count is a finite number in (0, 50]. *)
Lemma valid_servings_finite (s : number) :
  valid_servings s <->
  exists q, s = Finite q /\ (0 < q)%Q /\ (q <= 50)%Q.
Proof.
  unfold valid_servings, Number.zero, Number.of_Z. split.
  - intros [Hpos Hmax]. destruct s as [|[]|q]; try done.
    exists q. split; [done|]. split.
    + by apply Finite_lt in Hpos.
    + by apply Finite_le in Hmax.
  - intros (q & -> & Hpos & Hmax). split.
    + by apply Finite_lt.
    + by apply Finite_le.
Qed.

(** The three ways through [calculateCalories]. *)
Lemma calculateCalories_paths (item : FoodItem) (s : number) :
  (Js.truthy_num (calories item) = false ->
   USDAProvider.calculateCalories (Some item) s
   = Throw "Invalid food item or missing calorie data") /\
  (Js.truthy_num (calories item) = true ->
   Number.lt Number.zero s = false ->
   USDAProvider.calculateCalories (Some item) s
   = Throw "Servings must be a positive number") /\
  (Js.truthy_num (calories item) = true ->
   Number.lt Number.zero s = true ->
   exists c r,
     calories item = Some c /\
     USDAProvider.calculateCalories (Some item) s = Return r /\
     computes c s r).
Proof.
  unfold USDAProvider.calculateCalories. split; [|split].
  - by intros ->.
  - intros -> Hs. cbn [negb].
    destruct (negb (Number.truthy s) || Number.le s Number.zero) eqn:E;
      [done|].
    apply orb_false_iff in E as [T%negb_false_iff L].
    by rewrite (passes_positive s T L) in Hs.
  - intros Ht Hs. rewrite Ht. cbn [negb].
    destruct (positive_passes s Hs) as [-> ->].
    destruct (calories item) as [c|]; [|done].
    by eexists c, _.
Qed.

Lemma lt_zero_above (s : number) :
  Number.lt Number.zero s = true <-> above_zero s.
Proof.
  unfold above_zero, Number.zero, Number.of_Z.
  destruct s as [|[]|q].
  - split; [done|]. by intros [H|(q & H & _)].
  - split; [done|]. by intros [H|(q & H & _)].
  - split; [by left|done].
  - rewrite Finite_lt. split.
    + intros H. right. by exists q.
    + by intros [H|(q' & [= <-] & H)].
Qed.

(** X1: [calculateCalories] first looks at the calories of the food, then at
    the servings: for a food without calories, or with the calories NaN or
    0, it throws its missing-data error whatever the servings; otherwise it
    throws its servings error for servings that are not a number above 0
    (NaN, 0, negative), and returns the arithmetic for every number above
    0, also above 50 and for the infinity. *)
Theorem calculateCalories_cases (item : FoodItem) (s : number) :
  (missing (calories item) ->
   USDAProvider.calculateCalories (Some item) s
   = Throw "Invalid food item or missing calorie data") /\
  (~ missing (calories item) ->
   ~ above_zero s ->
   USDAProvider.calculateCalories (Some item) s
   = Throw "Servings must be a positive number") /\
  (~ missing (calories item) ->
   above_zero s ->
   exists c r,
     calories item = Some c /\
     USDAProvider.calculateCalories (Some item) s = Return r /\
     computes c s r).
Proof.
  destruct (calculateCalories_paths item s) as (H1 & H2 & H3).
  assert (~ missing (calories item) -> Js.truthy_num (calories item) = true)
    as Hcounts.
  { intros Hm. apply not_false_is_true. intros E. apply Hm.
    by apply truthy_num_false. }
  split; [|split].
  - intros Hm. apply H1. by apply truthy_num_false.
  - intros Hm Hs. apply H2; [by apply Hcounts|].
    apply not_true_is_false. intros E. by apply Hs, lt_zero_above.
  - intros Hm Hs. apply H3; [by apply Hcounts|by apply lt_zero_above].
Qed.

Lemma calculateCalories_cases_witness :
  exists c r,
    calories Scenario.macaroni = Some c /\
    USDAProvider.calculateCalories (Some Scenario.macaroni)
      (Number.of_Z 51) = Return r /\
    computes c (Number.of_Z 51) r.
Proof.
  apply (calculateCalories_cases Scenario.macaroni (Number.of_Z 51)).
  - by intros [H|[H|(q & [= <-] & H)]].
  - right. by exists 51%Q.
Defined.

Lemma round_integer (z : Z) :
  Number.round (Number.of_Z z) = Number.of_Z z.
Proof.
  unfold Number.round, Number.of_Z. f_equal. f_equal.
  unfold Qfloor, Qplus, inject_Z. simpl.
  rewrite Z.mul_1_r. replace (z * 2 + 1)%Z with (1 + z * 2)%Z by lia.
  by rewrite Z.div_add.
Qed.

(** X2: whole calories times whole servings are exact as long as the
    product is within the integers that binary64 holds: for a food with the
    integer calorie value [k], not 0, and [n] servings, [n] an integer above
    0, with [|k * n| <= 2 ^ 53], the total is [k * n]. *)
Theorem calculateCalories_whole (item : FoodItem) (k n : Z) :
  calories item = Some (Number.of_Z k) ->
  k <> 0%Z ->
  (0 < n)%Z ->
  (Z.abs (k * n) <= 2 ^ 53)%Z ->
  exists r,
    USDAProvider.calculateCalories (Some item) (Number.of_Z n) = Return r /\
    calories_per_serving r = Number.of_Z k /\
    total_calories r = Number.of_Z (k * n).
Proof.
  intros Hc Hk Hn Hmax.
  destruct (calculateCalories_paths item (Number.of_Z n)) as (_ & _ & H).
  destruct H as (c & r & Hc' & Hr & Hcps & Htot & _).
  - rewrite Hc. simpl. apply negb_true_iff, Z.eqb_neq. lia.
  - apply Finite_lt. rewrite <- Zlt_Qlt. lia.
  - rewrite Hc in Hc'. injection Hc' as <-.
    exists r. split; [done|]. split; [done|].
    rewrite Htot, (mul_Z k n Hmax). apply round_integer.
Qed.

Lemma calculateCalories_whole_witness :
  exists r,
    USDAProvider.calculateCalories (Some Scenario.macaroni) (Number.of_Z 2)
    = Return r /\
    calories_per_serving r = Number.of_Z 350 /\
    total_calories r = Number.of_Z (350 * 2).
Proof.
  apply (calculateCalories_whole Scenario.macaroni 350 2);
    [reflexivity|lia|lia|by vm_compute].
Defined.

(** The total for finite calories and servings above 0. *)
Lemma calculateCalories_finite (item : FoodItem) (p q : Q) :
  calories item = Some (Finite p) ->
  (0 < p)%Q -> (0 < q)%Q ->
  exists r,
    USDAProvider.calculateCalories (Some item) (Finite q) = Return r /\
    total_calories r = Number.round (Number.double_pos (p * q)).
Proof.
  intros Hc Hp Hq.
  destruct (calculateCalories_paths item (Finite q)) as (_ & _ & H).
  destruct H as (c & r & Hc' & Hr & _ & Htot & _).
  - rewrite Hc. apply Finite_truthy. intros E. rewrite E in Hp.
    by apply Qlt_irrefl in Hp.
  - by apply Finite_lt.
  - rewrite Hc in Hc'. injection Hc' as <-. exists r. split; [done|].
    by rewrite Htot, mul_pos.
Qed.

(** X3: for a food with finite calories above 0 and a valid servings count,
    the total is an integer that is not negative, or else the infinity, and
    this only for a product of calories and servings from [2 ^ 1023] on; for
    a product up to [2 ^ 52] the total lies within 1 of it: one half for the
    rounding of the product, one half for [Math.round]. *)
Theorem calculateCalories_bounds (item : FoodItem) (p : Q) (s : number) :
  calories item = Some (Finite p) ->
  (0 < p)%Q ->
  valid_servings s ->
  exists q r,
    s = Finite q /\
    USDAProvider.calculateCalories (Some item) s = Return r /\
    (total_calories r = Infinity false /\ (2 ^ 1023 <= p * q)%Q \/
     exists z, total_calories r = Number.of_Z z /\ (0 <= z)%Z) /\
    ((p * q <= 2 ^ 52)%Q ->
     exists z,
       total_calories r = Number.of_Z z /\
       (inject_Z z - 1 <= p * q)%Q /\ (p * q < inject_Z z + 1)%Q).
Proof.
  intros Hc Hp (q & -> & Hq & _)%valid_servings_finite.
  destruct (calculateCalories_finite item p q Hc Hp Hq) as (r & Hr & Htot).
  assert (0 < p * q)%Q as Hpq by by apply Qmult_lt_0_compat.
  exists q, r. split; [done|]. split; [done|]. split.
  - destruct (Number.double_pos (p * q)) as [|[]|v] eqn:E.
    + unfold Number.double_pos in E. by destruct (Qle_bool _ _).
    + unfold Number.double_pos in E. by destruct (Qle_bool _ _).
    + left. split; [by rewrite Htot|]. by apply double_pos_overflow.
    + right. exists (Qfloor (v + (1 # 2))). split; [by rewrite Htot|].
      assert (0 <= v)%Q as Hv.
      { unfold Number.double_pos in E.
        destruct (Qle_bool _ _); [done|]. injection E as <-.
        rewrite Qred_correct. by apply nearest_nonneg. }
      change 0%Z with (Qfloor 0). apply Qfloor_resp_le. lra.
  - intros Hmax.
    destruct (double_pos_near (p * q) Hpq Hmax) as (v & Ev & _ & Hlo & Hhi).
    destruct (round_nearest v) as (z & Hz & Zlo & Zhi).
    exists z. split; [by rewrite Htot, Ev|]. split; lra.
Qed.

Lemma calculateCalories_bounds_witness :
  exists q r,
    Number.of_Z 2 = Finite q /\
    USDAProvider.calculateCalories (Some Scenario.macaroni) (Number.of_Z 2)
    = Return r /\
    (total_calories r = Infinity false /\ (2 ^ 1023 <= 350 * q)%Q \/
     exists z, total_calories r = Number.of_Z z /\ (0 <= z)%Z) /\
    ((350 * q <= 2 ^ 52)%Q ->
     exists z,
       total_calories r = Number.of_Z z /\
       (inject_Z z - 1 <= 350 * q)%Q /\ (350 * q < inject_Z z + 1)%Q).
Proof.
  apply (calculateCalories_bounds Scenario.macaroni 350 (Number.of_Z 2));
    [reflexivity|reflexivity|split; reflexivity].
Defined.

(** X4: more servings never give fewer calories: for a food with finite
    calories above 0 and two valid servings counts [s1 <= s2], the total for
    [s1] is at most the total for [s2]. *)
Theorem calculateCalories_monotone (item : FoodItem) (p : Q)
    (s1 s2 : number) :
  calories item = Some (Finite p) ->
  (0 < p)%Q ->
  valid_servings s1 -> valid_servings s2 ->
  Number.le s1 s2 = true ->
  exists r1 r2,
    USDAProvider.calculateCalories (Some item) s1 = Return r1 /\
    USDAProvider.calculateCalories (Some item) s2 = Return r2 /\
    Number.le (total_calories r1) (total_calories r2) = true.
Proof.
  intros Hc Hp (q1 & -> & Hq1 & _)%valid_servings_finite
         (q2 & -> & Hq2 & _)%valid_servings_finite Hle%Finite_le.
  destruct (calculateCalories_finite item p q1 Hc Hp Hq1) as (r1 & Hr1 & Ht1).
  destruct (calculateCalories_finite item p q2 Hc Hp Hq2) as (r2 & Hr2 & Ht2).
  exists r1, r2. split; [done|]. split; [done|].
  rewrite Ht1, Ht2. apply round_mono, double_pos_mono.
  - by apply Qmult_lt_0_compat.
  - rewrite !(Qmult_comm p). apply Qmult_le_compat_r; [done|].
    by apply Qlt_le_weak.
Qed.

Lemma calculateCalories_monotone_witness :
  exists r1 r2,
    USDAProvider.calculateCalories (Some Scenario.macaroni) (Finite (3 # 2))
    = Return r1 /\
    USDAProvider.calculateCalories (Some Scenario.macaroni) (Number.of_Z 2)
    = Return r2 /\
    Number.le (total_calories r1) (total_calories r2) = true.
Proof.
  apply (calculateCalories_monotone Scenario.macaroni 350 (Finite (3 # 2))
           (Number.of_Z 2));
    [reflexivity|reflexivity|split; reflexivity|split; reflexivity
    |reflexivity].
Defined.

End CalculateCalories.

(** ** Errors of [getCalories] with the USDA provider *)

Section UpstreamErrors.

Import FoodService.

Variable api : USDAProvider.Upstream.

Lemma usda_handleError_cases (error : USDAProvider.AxiosError) :
  let st := status_of error in
  USDAProvider._handleError error =
  if st =? 401 then "Invalid USDA API key"
  else if st =? 403 then "USDA API access denied"
  else if st =? 429 then "USDA API rate limit exceeded"
  else if 500 <=? st then "USDA API service unavailable"
  else "USDA API error: " +:+ detail_of error.
Proof.
  unfold USDAProvider._handleError, status_of, detail_of.
  destruct (USDAProvider.response_message error) as [m|],
    (USDAProvider.error_message error) as [m'|]; reflexivity.
Qed.

Lemma other_error_unmapped (m : string) :
  _handleError ("USDA API error: " +:+ m)
  = {| message := "USDA API error: " +:+ m;
       originalError := "USDA API error: " +:+ m;
       service := "FoodService" |}.
Proof. reflexivity. Qed.

(** X5: how a failure of the upstream service reaches the caller of
    [getCalories]: on a valid request that misses the cache, a rejected
    search makes [getCalories] fail after the lookup and that one search,
    with nothing cached, and with the message "Food database service configuration error"
    for the status 401, "USDA API access denied" for 403, "Service
    temporarily busy, please try again in a few minutes" for 429, "Food
    database service is temporarily unavailable" for a status from 500 on and
    for a failure without status, and "USDA API error: " followed by the
    detail of the failure otherwise. *)
Theorem getCalories_upstream_failure (dishName servings : value) (w : World)
    (d : string) (s : number) (elapsed : Z)
    (error : USDAProvider.AxiosError) :
  _validateInput dishName servings = Return (d, s) ->
  NodeCache.get (cache w) (clock w) (_generateCacheKey d s) = None ->
  api (clock w)
    (map (fun c => USDAProvider.search_params c.1 c.2) (calls w))
    (USDAProvider.search_params d page_of_ten)
  = (elapsed, inr error) ->
  let st := status_of error in
  exists e,
    getCalories (USDAProvider.provider api) dishName servings w
    = (Throw e,
       after_search (after_get w (_generateCacheKey d s)) elapsed d
         page_of_ten) /\
    originalError e = USDAProvider._handleError error /\
    (st = 401 -> message e = "Food database service configuration error") /\
    (st = 403 -> message e = "USDA API access denied") /\
    (st = 429 ->
     message e
     = "Service temporarily busy, please try again in a few minutes") /\
    (500 <= st ->
     message e = "Food database service is temporarily unavailable") /\
    (st < 500 -> st <> 401 -> st <> 403 -> st <> 429 ->
     message e = "USDA API error: " +:+ detail_of error).
Proof.
  intros Hv Hc Ha st.
  exists (_handleError (USDAProvider._handleError error)). split.
  - apply resolution_getCalories.
    eapply res_miss; [exact Hv|exact Hc| |apply comp_search_failed].
    simpl. unfold USDAProvider.searchFood. by rewrite Ha.
  - split; [done|]. rewrite usda_handleError_cases. fold st.
    split; [by intros ->|]. split; [by intros ->|]. split; [by intros ->|].
    split.
    + intros Hst.
      destruct (st =? 401) eqn:E1; [apply Z.eqb_eq in E1; lia|].
      destruct (st =? 403) eqn:E2; [apply Z.eqb_eq in E2; lia|].
      destruct (st =? 429) eqn:E3; [apply Z.eqb_eq in E3; lia|].
      apply Z.leb_le in Hst. by rewrite Hst.
    + intros Hst H1 H2 H3.
      apply Z.eqb_neq in H1, H2, H3. rewrite H1, H2, H3.
      destruct (500 <=? st) eqn:E5; [apply Z.leb_le in E5; lia|].
      by rewrite other_error_unmapped.
Qed.

End UpstreamErrors.

Lemma getCalories_upstream_failure_witness :
  exists e,
    FoodService.getCalories (USDAProvider.provider Scenario.busy_api)
      (VString "pizza") (VNumber Scenario.one) Scenario.fresh
    = (Throw e,
       FoodService.after_search Scenario.fresh 5 "pizza"
         FoodService.page_of_ten) /\
    FoodService.message e
    = "Service temporarily busy, please try again in a few minutes".
Proof.
  destruct (getCalories_upstream_failure Scenario.busy_api
              (VString "pizza") (VNumber Scenario.one) Scenario.fresh
              "pizza" Scenario.one 5
              {| USDAProvider.response_status := Some 429;
                 USDAProvider.response_message := Some "Too many requests";
                 USDAProvider.error_message :=
                   Some "Request failed with status code 429" |}
              eq_refl eq_refl eq_refl)
    as (e & H & _ & _ & _ & H429 & _).
  exists e. split; [exact H|]. by apply H429.
Defined.

Section ErrorOrigins.

Import FoodService.

Variable api : USDAProvider.Upstream.

Lemma usda_error_known (error : USDAProvider.AxiosError) :
  USDAProvider._handleError error ∈ usda_messages \/
  exists detail, USDAProvider._handleError error = "USDA API error: " +:+ detail.
Proof.
  rewrite usda_handleError_cases. unfold usda_messages.
  repeat case_match; rewrite ?elem_of_cons; eauto 10.
Qed.

(** The error an invalid input, an empty or useless search or a failed
    search ends in; the arithmetic never fails after the acceptance test. *)
Lemma getCalories_error_origin (dishName servings : value) (w w' : World)
    (e : ServiceError) :
  getCalories (USDAProvider.provider api) dishName servings w = (Throw e, w') ->
  exists m,
    e = _handleError m /\ origin api dishName servings w m /\ known_origin m.
Proof.
  intros H%getCalories_inv.
  inversion H as [m Hm Ho Hw|?|d s elapsed answer o w1 Hm Hc Hs C Ho Hw];
    subst.
  { exists m. split; [done|]. split; [by left|]. left.
    apply validateInput_reason in Hm. unfold validation_messages.
    rewrite !elem_of_cons.
    destruct Hm as [[-> _]|[[-> _]|[[-> _]|[-> _]]]]; auto. }
  pose proof Hm as Hvalid.
  apply validated in Hm as (_ & _ & _ & _ & Hserv).
  inversion C as [m' Ha Ho' Hw'|Ha Ho' Hw'|l Hne Hu Ha Ho' Hw'
                  |l best m' Hne Hb Hu Hcalc Ha Ho' Hw'|]; subst.
  - exists m'. split; [done|].
    simpl in Hs. unfold USDAProvider.searchFood in Hs.
    destruct (api _ _ _) as [t0 [data|error]] eqn:Ea; [discriminate Hs|].
    injection Hs as <- <-. split.
    + right. exists d, s. split; [done|]. right. by exists t0, error.
    + right; right. apply usda_error_known.
  - eexists. split; [done|].
    assert ("Dish not found" ∈ not_found_messages) as Hin.
    { unfold not_found_messages. rewrite !elem_of_cons. auto. }
    split; [|by right; left]. right. exists d, s. split; [done|]. by left.
  - eexists. split; [done|].
    assert ("Dish not found or calorie information unavailable"
            ∈ not_found_messages) as Hin.
    { unfold not_found_messages. rewrite !elem_of_cons. auto. }
    split; [|by right; left]. right. exists d, s. split; [done|]. by left.
  - exfalso.
    change (USDAProvider.calculateCalories (Some best) s = Throw m') in Hcalc.
    destruct (calories best) as [c|] eqn:Ec; [|done].
    by rewrite (calculateCalories_returns best c s Ec Hu Hserv) in Hcalc.
Qed.

(** X6: every error of [getCalories] with the USDA provider is what
    [_handleError] makes of a message that the validation threw, or, on
    valid input, of one of the two not-found messages or of the message the
    provider made of a rejected search.  So the two errors of
    [calculateCalories] never reach the caller: "Invalid food item or
    missing calorie data" never occurs, and "Servings must be a positive
    number" only as thrown by the validation; the entry "Invalid servings"
    of the error table is never used; and the message is never a name that
    the table inherits. *)
Theorem getCalories_errors (dishName servings : value) (w w' : World)
    (e : ServiceError) :
  getCalories (USDAProvider.provider api) dishName servings w = (Throw e, w') ->
  e = _handleError (originalError e) /\
  origin api dishName servings w (originalError e) /\
  known_origin (originalError e) /\
  originalError e <> "Invalid food item or missing calorie data" /\
  (originalError e = "Servings must be a positive number" ->
   _validateInput dishName servings
   = Throw "Servings must be a positive number") /\
  originalError e <> "Invalid servings" /\
  message e <> "Please enter a valid number of servings (greater than 0)" /\
  originalError e ∉ inherited.
Proof.
  intros (m & -> & Horigin & Hm)%getCalories_error_origin.
  change (originalError (_handleError m)) with m.
  split; [done|]. split; [done|]. split; [done|].
  assert (forall text,
            text ∉ validation_messages -> text ∉ not_found_messages ->
            text ∉ usda_messages ->
            (forall detail, text <> "USDA API error: " +:+ detail) ->
            m <> text) as Hother.
  { intros text H1 H2 H3 H4 ->.
    destruct Hm as [Hm|[Hm|[Hm|[detail Hm]]]]; [done..|].
    by apply (H4 detail). }
  assert (forall text,
            text ∈ "Invalid food item or missing calorie data"
                   :: "Invalid servings"
                   :: "Please enter a valid number of servings (greater than 0)"
                   :: inherited ->
            m <> text) as Hnot.
  { intros text Hin. apply Hother;
      unfold validation_messages, not_found_messages, usda_messages,
        inherited in *;
      rewrite ?elem_of_cons, ?elem_of_nil in *;
      try (intros detail Hd);
      repeat match goal with
             | H : _ \/ _ |- _ => destruct H as [H|H]
             | H : text = _ |- _ => subst text
             end;
      try done;
      intros Hx; rewrite ?elem_of_cons, ?elem_of_nil in Hx;
      repeat (destruct Hx as [Hx|Hx]; try discriminate Hx); done. }
  split; [apply Hnot; rewrite !elem_of_cons; auto|].
  split.
  { intros ->. destruct Horigin as [Hv|(d & s & Hv & Hrest)]; [done|].
    exfalso. destruct Hrest as [Hnf|(elapsed & error & _ & Herr)].
    - unfold not_found_messages in Hnf.
      rewrite !elem_of_cons, elem_of_nil in Hnf.
      by repeat (destruct Hnf as [Hnf|Hnf]; try discriminate Hnf).
    - destruct (usda_error_known error) as [Hin|[detail Hd]];
        rewrite <- Herr in *.
      + unfold usda_messages in Hin.
        rewrite !elem_of_cons, elem_of_nil in Hin.
        by repeat (destruct Hin as [Hin|Hin]; try discriminate Hin).
      + discriminate Hd. }
  assert (m <> "Invalid servings") as H2
    by (apply Hnot; rewrite !elem_of_cons; auto).
  assert (m <> "Please enter a valid number of servings (greater than 0)")
    as H3 by (apply Hnot; rewrite !elem_of_cons; auto).
  split; [done|]. split.
  2: { intros Hin. by apply (Hnot m); [do 3 right|]. }
  change (message (_handleError m)) with (default m (mapped m errorMappings)).
  destruct (mapped m errorMappings) as [u|] eqn:Emap;
    cbn [from_option id]; [|exact H3].
  unfold errorMappings, mapped in Emap. unfold Datatypes.id.
  repeat match type of Emap with
         | (if String.eqb ?k m then _ else _) = _ =>
             let E := fresh "E" in
             destruct (String.eqb_spec k m) as [E|E];
             [injection Emap as <-;
              first [discriminate|exfalso; apply H2; symmetry; exact E]|]
         end.
  done.
Qed.

End ErrorOrigins.

Lemma getCalories_errors_witness :
  exists e,
    FoodService.getCalories (USDAProvider.provider Scenario.busy_api)
      (VString "pizza") (VNumber Scenario.one) Scenario.fresh
    = (Throw e,
       FoodService.after_search Scenario.fresh 5 "pizza"
         FoodService.page_of_ten) /\
    origin Scenario.busy_api (VString "pizza") (VNumber Scenario.one)
      Scenario.fresh (FoodService.originalError e) /\
    FoodService.originalError e = "USDA API rate limit exceeded".
Proof.
  eexists. split; [reflexivity|].
  split; [|reflexivity].
  eapply (getCalories_errors Scenario.busy_api (VString "pizza")
            (VNumber Scenario.one) Scenario.fresh).
  reflexivity.
Defined.

(** ** Searches sent and entries that expire *)

Section SearchesSent.

Import FoodService.

Variable provider : FoodDataProvider.

(** X7: a call of [getCalories] sends at most one search: none when the
    input is invalid or the cache has a live entry for the request, in which
    cases nothing changes at all, and exactly one otherwise, for the dish
    name as given with a page size of 10, whatever the outcome; the clock
    advances by the time the search takes. *)
Theorem getCalories_one_search (dishName servings : value) (w : World) :
  let out := getCalories provider dishName servings w in
  match _validateInput dishName servings with
  | Throw _ => out.2 = w
  | Return (d, s) =>
      match NodeCache.get (cache w) (clock w) (_generateCacheKey d s) with
      | Some _ => out.2 = w
      | None =>
          calls out.2 = calls w ++ [(d, page_of_ten)] /\
          clock out.2
          = clock w + (searchFood provider (clock w) (calls w) d page_of_ten).1
      end
  end.
Proof.
  intros out.
  pose proof (getCalories_resolution provider dishName servings w) as R.
  fold out in R.
  destruct R as [m Hv|d s r Hv Hc|d s elapsed answer outcome w' Hv Hc Hs C].
  - by rewrite Hv.
  - by rewrite Hv, Hc.
  - rewrite Hv, Hc, Hs.
    by destruct C as [m| |l Hne Hu|l best m Hne Hb Hu Hcalc
                      |l best r Hne Hb Hu Hcalc result].
Qed.

(** An entry written at [now] with a TTL above 0 is dead once the TTL has
    passed. *)
Lemma set_get_expired (c : NodeCache.Cache) (now t : Z) (key : string)
    (r : CalorieResult) :
  0 <= now -> 0 < NodeCache.stdTTL c ->
  now + NodeCache.stdTTL c * 1000 < t ->
  NodeCache.get (NodeCache.set c now key r) t key = None.
Proof.
  intros Hnow Httl Ht. unfold NodeCache.get, NodeCache.set. simpl.
  rewrite lookup_insert_eq.
  unfold NodeCache.alive, NodeCache.livetime. simpl.
  replace (NodeCache.stdTTL c =? 0) with false by lia.
  replace (now + NodeCache.stdTTL c * 1000 =? 0) with false by lia.
  by replace (now + NodeCache.stdTTL c * 1000 <? t) with true by lia.
Qed.

(** X8: entries expire by their TTL: when a call that went to the provider
    has succeeded, with a TTL above 0, the same call repeated later than the
    TTL after the first one returned does not find the entry and sends a
    search again. *)
Theorem getCalories_expired (dishName servings : value) (w w1 : World)
    (r : CalorieResult) (t : Z) :
  getCalories provider dishName servings w = (Return r, w1) ->
  calls w1 <> calls w ->
  0 <= clock w1 -> 0 < NodeCache.stdTTL (cache w1) ->
  clock w1 + NodeCache.stdTTL (cache w1) * 1000 < t ->
  exists d s,
    _validateInput dishName servings = Return (d, s) /\
    NodeCache.get (cache w1) t (_generateCacheKey d s) = None /\
    calls (getCalories provider dishName servings (at_time t w1)).2
    = calls w1 ++ [(d, page_of_ten)].
Proof.
  intros H%getCalories_inv Hsent Hnow Httl Ht.
  inversion H as [|d' s' r' Hv' Hc' Ho' Hw'
                  |d s elapsed answer outcome w' Hv Hc Hs C Ho' Hw'];
    subst; [done|].
  inversion C as [| | | |l best r0 Hne Hb Hu Hcalc result Ha Ho Hw]; subst.
  exists d, s. split; [done|].
  set (w0 := after_search (after_get w (_generateCacheKey d s)) elapsed d
               page_of_ten) in *.
  assert (NodeCache.get
            (cache (after_set w0 (_generateCacheKey d s) result)) t
            (_generateCacheKey d s) = None) as Hdead.
  { simpl. by apply set_get_expired. }
  split; [done|].
  pose proof (getCalories_resolution provider dishName servings
                (at_time t (after_set w0 (_generateCacheKey d s) result)))
    as R.
  inversion R as [m Hm|d2 s2 r2 Hv2 Hc2|d2 s2 el2 a2 o2 w2 Hv2 Hc2 Hs2 C2];
    [congruence| |].
  - rewrite Hv in Hv2. injection Hv2 as <- <-. simpl in Hc2, Hdead.
    congruence.
  - rewrite Hv in Hv2. injection Hv2 as <- <-.
    by inversion C2; subst.
Qed.

End SearchesSent.

Lemma getCalories_expired_witness :
  exists d s,
    FoodService._validateInput (VString "macaroni and cheese")
      (VNumber Scenario.two) = Return (d, s) /\
    NodeCache.get (cache Scenario.warm) 3602000
      (FoodService._generateCacheKey d s) = None /\
    calls (FoodService.getCalories
             (USDAProvider.provider Scenario.macaroni_api)
             (VString "macaroni and cheese") (VNumber Scenario.two)
             (at_time 3602000 Scenario.warm)).2
    = calls Scenario.warm ++ [(d, FoodService.page_of_ten)].
Proof.
  eapply (getCalories_expired
            (USDAProvider.provider Scenario.macaroni_api)
            (VString "macaroni and cheese") (VNumber Scenario.two)
            Scenario.fresh Scenario.warm _ 3602000).
  - by vm_compute.
  - by vm_compute.
  - by vm_compute.
  - by vm_compute.
  - by vm_compute.
Defined.

(** ** The cache key *)

Section CacheKey.

Import FoodService.

Lemma append_cons (c : ascii) (a b : string) :
  String c a +:+ b = String c (a +:+ b).
Proof. reflexivity. Qed.

Lemma append_nil_r (s : string) : s +:+ "" = s.
Proof. induction s as [|c s IH]; [done|]. rewrite ?append_cons; cbn. by rewrite IH. Qed.

Lemma append_assoc (a b c : string) : (a +:+ b) +:+ c = a +:+ b +:+ c.
Proof. induction a as [|x a IH]; [done|]. rewrite ?append_cons; cbn. by rewrite IH. Qed.

Lemma append_inv_head (a b c : string) : a +:+ b = a +:+ c -> b = c.
Proof.
  induction a as [|x a IH]; [done|]. intros H. apply IH. by injection H.
Qed.

Lemma toLowerCase_append (a b : string) :
  JsString.toLowerCase (a +:+ b)
  = JsString.toLowerCase a +:+ JsString.toLowerCase b.
Proof. induction a as [|c a IH]; [done|]. rewrite ?append_cons; cbn. by rewrite IH. Qed.

Lemma lower_space (c : ascii) :
  JsString.is_space c = true -> JsString.lower_char c = c.
Proof.
  unfold JsString.is_space, JsString.lower_char.
  intros H. destruct (65 <=? nat_of_ascii c)%nat eqn:E; [|done].
  apply Nat.leb_le in E.
  apply orb_true_iff in H as [H%Nat.eqb_eq|[_ H%Nat.leb_le]%andb_true_iff];
    lia.
Qed.

Lemma toLowerCase_blank (pad : string) :
  blank pad = true -> JsString.toLowerCase pad = pad.
Proof.
  induction pad as [|c pad IH]; [done|].
  intros [Hc Hp]%andb_true_iff. rewrite ?append_cons; cbn. by rewrite lower_space, IH.
Qed.

Lemma trimStart_blank (pad x : string) :
  blank pad = true -> JsString.trimStart (pad +:+ x) = JsString.trimStart x.
Proof.
  induction pad as [|c pad IH]; [done|].
  intros [Hc Hp]%andb_true_iff. rewrite ?append_cons; cbn. rewrite Hc. by apply IH.
Qed.

Lemma trimStart_blank_only (pad : string) :
  blank pad = true -> JsString.trimStart pad = "".
Proof.
  induction pad as [|c pad IH]; [done|].
  intros [Hc Hp]%andb_true_iff. rewrite ?append_cons; cbn. rewrite Hc. by apply IH.
Qed.

Lemma trimEnd_blank_only (pad : string) :
  blank pad = true -> JsString.trimEnd pad = "".
Proof.
  induction pad as [|c pad IH]; [done|].
  intros [Hc Hp]%andb_true_iff. rewrite ?append_cons; cbn. by rewrite IH, Hc.
Qed.

Lemma trimEnd_blank (x pad : string) :
  blank pad = true -> JsString.trimEnd (x +:+ pad) = JsString.trimEnd x.
Proof.
  intros Hp. induction x as [|c x IH]; [by apply trimEnd_blank_only|].
  rewrite ?append_cons; cbn. by rewrite IH.
Qed.

Lemma trimStart_append (x pad : string) :
  blank pad = true ->
  JsString.trimEnd (JsString.trimStart (x +:+ pad))
  = JsString.trimEnd (JsString.trimStart x).
Proof.
  intros Hp. induction x as [|c x IH].
  - change ("" +:+ pad) with pad. by rewrite trimStart_blank_only.
  - rewrite ?append_cons; cbn. destruct (JsString.is_space c); [done|].
    change (String c (x +:+ pad)) with (String c x +:+ pad).
    by apply trimEnd_blank.
Qed.

(** White space around a name does not survive [trim]. *)
Lemma trim_blank (pad1 x pad2 : string) :
  blank pad1 = true -> blank pad2 = true ->
  JsString.trim (pad1 +:+ x +:+ pad2) = JsString.trim x.
Proof.
  intros H1 H2. unfold JsString.trim.
  rewrite trimStart_blank by done. by apply trimStart_append.
Qed.

Lemma generateCacheKey_spelling_eq (pad1 x pad2 y : string) (s : number) :
  blank pad1 = true -> blank pad2 = true ->
  JsString.toLowerCase x = JsString.toLowerCase y ->
  _generateCacheKey (pad1 +:+ x +:+ pad2) s = _generateCacheKey y s.
Proof.
  intros H1 H2 Hxy. unfold _generateCacheKey.
  rewrite !toLowerCase_append, Hxy.
  rewrite (toLowerCase_blank pad1), (toLowerCase_blank pad2) by done.
  by rewrite trim_blank.
Qed.

(** X9: the cache key does not see the letter case of the dish name nor
    the white space around it: two names that are equal once lower-cased,
    one of them wrapped in white space, give the same key. *)
Theorem generateCacheKey_spelling (pad1 x pad2 y : string) (s : number) :
  blank pad1 = true -> blank pad2 = true ->
  JsString.toLowerCase x = JsString.toLowerCase y ->
  _generateCacheKey (pad1 +:+ x +:+ pad2) s = _generateCacheKey y s.
Proof. apply generateCacheKey_spelling_eq. Qed.

Lemma generateCacheKey_spelling_witness :
  _generateCacheKey ("  " +:+ "Macaroni AND Cheese" +:+ " ") Scenario.two
  = _generateCacheKey "macaroni and cheese" Scenario.two.
Proof.
  apply (generateCacheKey_spelling "  " "Macaroni AND Cheese" " "
           "macaroni and cheese" Scenario.two); reflexivity.
Defined.

Variable provider : FoodDataProvider.

(** X10: a dish resolved under one spelling is served from the cache under
    another: after a call that went to the provider and succeeded, a call
    for a valid name with the same letters, case apart, and white space
    around it, with the same servings and no later than the TTL, returns the
    result of the first call, dish name included, and sends no search. *)
Theorem getCalories_other_spelling (x y pad1 pad2 : string)
    (servings : value) (s : number) (w w1 : World) (r : CalorieResult)
    (t : Z) :
  let respelled := pad1 +:+ x +:+ pad2 in
  getCalories provider (VString y) servings w = (Return r, w1) ->
  calls w1 <> calls w ->
  blank pad1 = true -> blank pad2 = true ->
  JsString.toLowerCase x = JsString.toLowerCase y ->
  _validateInput (VString respelled) servings = Return (respelled, s) ->
  t <= clock w1 + NodeCache.stdTTL (cache w1) * 1000 ->
  getCalories provider (VString respelled) servings (at_time t w1)
  = (Return r, at_time t w1).
Proof.
  intros respelled H Hsent H1 H2 Hxy Hv2 Ht.
  apply getCalories_inv in H.
  inversion H as [|d' s' r' Hv' Hc' Ho' Hw'
                  |d s0 elapsed answer outcome w' Hv Hc Hs C Ho' Hw'];
    subst; [done|].
  inversion C as [| | | |l best r0 Hne Hb Hu Hcalc result Ha Ho Hw]; subst.
  apply validated in Hv as ([= <-] & -> & _).
  pose proof Hv2 as Hv2'.
  apply validated in Hv2' as (_ & [= <-] & _).
  apply resolution_getCalories. eapply res_hit; [exact Hv2|].
  unfold respelled. rewrite (generateCacheKey_spelling_eq pad1 x pad2 y s0) by done.
  simpl. by apply set_get.
Qed.

(** The digits of a number are digits. *)
Lemma pretty_N_go_digits (x : N) :
  forall s, every is_digit s = true -> every is_digit (pretty_N_go x s) = true.
Proof.
  induction (N.lt_wf_0 x) as [x _ IH]. intros s Hs.
  destruct (decide (x = 0)%N) as [->|Hx]; [by rewrite pretty_N_go_0|].
  rewrite pretty_N_go_step by lia.
  apply IH; [apply N.div_lt; lia|].
  cbn [every]. rewrite Hs, andb_true_r.
  unfold pretty_N_char. by repeat case_match.
Qed.

Lemma pretty_positive_digits (n : Z) :
  (0 < n)%Z -> every is_digit (pretty n) = true.
Proof.
  destruct n as [|p|p]; [lia| |lia]. intros _.
  unfold pretty, pretty_Z, pretty, pretty_positive, pretty, pretty_N.
  destruct (decide (N.pos p = 0)%N); [done|].
  by apply pretty_N_go_digits.
Qed.

(** A whole number of servings prints as its digits. *)
Lemma toString_whole (n : Z) :
  (0 < n)%Z -> Number.toString (Number.of_Z n) = pretty n.
Proof.
  intros Hn. unfold Number.toString, Number.of_Z, inject_Z. cbn [Qnum Qden].
  replace (n <? 0)%Z with false by lia.
  rewrite Z.abs_eq, Z.div_1_r, Z.mod_1_r by lia.
  change (0 =? 0)%Z with true. cbn iota.
  change ("" +:+ pretty n +:+ "") with (pretty n +:+ "").
  apply append_nil_r.
Qed.

(** Where the last "_" of a key is. *)
Lemma split_at_last_underscore (x y p1 p2 : string) :
  every is_digit p1 = true -> every is_digit p2 = true ->
  x +:+ "_" +:+ p1 = y +:+ "_" +:+ p2 -> x = y /\ p1 = p2.
Proof.
  intros H1 H2. revert y.
  assert (forall a p q, every is_digit q = true ->
            q = a +:+ "_" +:+ p -> False) as Hno.
  { intros a p q Hq ->. induction a as [|c a IH].
    - discriminate Hq.
    - rewrite append_cons in Hq. cbn [every] in Hq.
      apply andb_true_iff in Hq as [_ Hq]. by apply IH. }
  induction x as [|c x IH]; intros [|c' y] H.
  - split; [done|]. by injection H.
  - rewrite append_cons in H. injection H as _ H. by destruct (Hno y p2 p1 H1).
  - rewrite append_cons in H. injection H as _ H.
    by destruct (Hno x p1 p2 H2).
  - rewrite !append_cons in H. injection H as -> H.
    destruct (IH y H) as [-> ->]. done.
Qed.

(** X11: requests share a cache entry only if they agree: for whole
    numbers of servings, two keys are equal only if the dish names are equal
    once lower-cased and trimmed and the servings are equal. *)
Theorem generateCacheKey_injective (d1 d2 : string) (m n : Z) :
  (0 < m)%Z -> (0 < n)%Z ->
  _generateCacheKey d1 (Number.of_Z m) = _generateCacheKey d2 (Number.of_Z n) ->
  JsString.trim (JsString.toLowerCase d1)
  = JsString.trim (JsString.toLowerCase d2) /\
  m = n.
Proof.
  intros Hm Hn. unfold _generateCacheKey.
  rewrite !toString_whole by done. intros H%append_inv_head.
  apply split_at_last_underscore in H as [H1 H2];
    [|by apply pretty_positive_digits..].
  split; [done|]. by apply (inj pretty).
Qed.

Lemma generateCacheKey_injective_witness :
  JsString.trim (JsString.toLowerCase "Pizza ")
  = JsString.trim (JsString.toLowerCase "pizza") /\
  2%Z = 2%Z.
Proof.
  apply (generateCacheKey_injective "Pizza " "pizza" 2 2); [lia|lia|].
  reflexivity.
Defined.

End CacheKey.

Lemma getCalories_other_spelling_witness :
  exists r,
    FoodService.getCalories (USDAProvider.provider Scenario.macaroni_api)
      (VString "macaroni and cheese") (VNumber Scenario.two) Scenario.fresh
    = (Return r, Scenario.warm) /\
    FoodService.getCalories (USDAProvider.provider Scenario.macaroni_api)
      (VString ("  " +:+ "Macaroni AND Cheese" +:+ " "))
      (VNumber Scenario.two) (at_time 2000 Scenario.warm)
    = (Return r, at_time 2000 Scenario.warm).
Proof.
  eexists. split; [by vm_compute|].
  eapply (getCalories_other_spelling
            (USDAProvider.provider Scenario.macaroni_api)
            "Macaroni AND Cheese" "macaroni and cheese" "  " " "
            (VNumber Scenario.two) Scenario.two Scenario.fresh Scenario.warm
            _ 2000); by vm_compute.
Defined.

(** ** What the provider extracts from a nutrient list *)

Section NutrientMap.

Import USDAProvider.

Lemma or_zero_not_NaN (a b : option number) : Js.or_zero a b <> NaN.
Proof.
  assert (forall y, Number.or y Number.zero <> NaN) as Hor.
  { intros y. unfold Number.or. destruct (Number.truthy y) eqn:E; [|done].
    by destruct y. }
  unfold Js.or_zero.
  destruct a as [x|]; [destruct (Number.truthy x) eqn:E; [by destruct x|]|];
    destruct b as [y|]; try done; apply Hor.
Qed.

Lemma round_whole (x : number) : x <> NaN -> whole_or_infinite (Number.round x).
Proof.
  destruct x as [|b|q]; [done|by left; exists b|]. intros _. right.
  by eexists.
Qed.

(** X12: the calories the provider extracts are never NaN and never a
    fraction: whatever the nutrient data, array or object, the extracted
    value, if any, is a whole number (or an infinity when the data say so);
    so are the calories of every candidate of a search. *)
Theorem extractCalories_whole :
  (forall nutrients c,
     _extractCalories nutrients = Some c -> whole_or_infinite c) /\
  (forall data item c,
     item ∈ _transformSearchResults data ->
     calories item = Some c -> whole_or_infinite c).
Proof.
  assert (forall nutrients c,
            _extractCalories nutrients = Some c -> whole_or_infinite c) as H.
  { intros nutrients c. unfold _extractCalories.
    assert (forall props keys c,
              scan_keys props keys = Some c -> whole_or_infinite c) as Hscan.
    { intros props keys. induction keys as [|k keys IH]; [done|].
      intros c0. cbn [scan_keys].
      destruct (props !! k) as [e|]; [|apply IH].
      destruct (entry_value e) as [v|] eqn:Ev; cbn [Js.truthy_num];
        [|apply IH].
      destruct (Number.truthy v) eqn:Tv; [|apply IH].
      intros [= <-]. apply round_whole. by destruct v. }
    destruct nutrients as [|entries|props]; [done| |].
    - destruct (List.find is_energy entries) as [n|].
      + intros [= <-]. apply round_whole, or_zero_not_NaN.
      + cbn [props_of scan_keys]. by rewrite !lookup_empty.
    - cbn [props_of].
      destruct (scan_keys props _) as [c0|] eqn:Es.
      + intros [= <-]. by eapply Hscan.
      + destruct (props !! "energy") as [e|]; [|done].
        intros [= <-]. apply round_whole, or_zero_not_NaN. }
  split; [exact H|].
  intros data item c Hin Hc. unfold _transformSearchResults in Hin.
  destruct (foods data) as [fs|]; [|by apply elem_of_nil in Hin].
  apply list_elem_of_fmap in Hin as (food & -> & _).
  exact (H (foodNutrients food) c Hc).
Qed.

Lemma extractCalories_whole_witness :
  whole_or_infinite (Number.of_Z 350).
Proof.
  destruct extractCalories_whole as [H _].
  apply (H (foodNutrients Scenario.macaroni_food)). reflexivity.
Defined.

Lemma add_nutrient_key (m : gmap string Nutrient) (n : FoodNutrient) :
  add_nutrient m n
  = match nutrient_key n with
    | Some k => if String.eqb k "__proto__" then m
                else <[k := nutrient_of n]> m
    | None => m
    end.
Proof.
  unfold add_nutrient, nutrient_key, nutrient_of.
  destruct (nutrient n) as [r|].
  - destruct (ref_name r) as [text|]; [|done]. by destruct (JsString.truthy text).
  - destruct (nutrientName n) as [text|]; [|done].
    by destruct (JsString.truthy text).
Qed.

Lemma fold_nutrients_other (k : string) (entries : list FoodNutrient) :
  (forall n, n ∈ entries -> nutrient_key n <> Some k) ->
  forall m, fold_left add_nutrient entries m !! k = m !! k.
Proof.
  induction entries as [|n entries IH]; intros Hk m; [done|].
  cbn [fold_left]. rewrite IH.
  - rewrite add_nutrient_key.
    destruct (nutrient_key n) as [k'|] eqn:E; [|done].
    destruct (String.eqb k' "__proto__"); [done|].
    apply lookup_insert_ne. intros ->. apply (Hk n); [by left|done].
  - intros n' Hn'. apply Hk. by right.
Qed.

(** No entry is filed under ["__proto__"]. *)
Lemma fold_nutrients_proto (entries : list FoodNutrient) :
  forall m, fold_left add_nutrient entries m !! "__proto__" = m !! "__proto__".
Proof.
  induction entries as [|n entries IH]; intros m; [done|].
  cbn [fold_left]. rewrite IH, add_nutrient_key.
  destruct (nutrient_key n) as [k|]; [|done].
  destruct (String.eqb_spec k "__proto__") as [E|E]; [done|].
  by apply lookup_insert_ne.
Qed.

Lemma lower_char_twice (c : ascii) :
  JsString.lower_char (JsString.lower_char c) = JsString.lower_char c.
Proof.
  unfold JsString.lower_char at 2 3.
  destruct ((65 <=? nat_of_ascii c)%nat && (nat_of_ascii c <=? 90)%nat)
    eqn:E.
  - apply andb_true_iff in E as [E1%Nat.leb_le E2%Nat.leb_le].
    unfold JsString.lower_char.
    rewrite nat_ascii_embedding by lia.
    assert ((nat_of_ascii c + 32 <=? 90)%nat = false) as ->
      by (apply Nat.leb_gt; lia).
    by rewrite andb_false_r.
  - unfold JsString.lower_char. by rewrite E.
Qed.

Lemma toLowerCase_twice (s : string) :
  JsString.toLowerCase (JsString.toLowerCase s) = JsString.toLowerCase s.
Proof.
  induction s as [|c s IH]; [done|]. cbn. by rewrite lower_char_twice, IH.
Qed.

(** X13: the nutrient map files every named entry under its lower-cased
    name, but for the name ["__proto__"], which a plain object does not take
    as a key, and the last entry of a name wins: the map has under [k] what
    the last entry with the key [k] says, and nothing when no entry has this
    key; it has nothing under ["__proto__"]; every key of the map is
    lower-case. *)
Theorem extractNutrients_last (entries : list FoodNutrient) (k : string) :
  (forall before n after,
     entries = before ++ n :: after ->
     nutrient_key n = Some k ->
     k <> "__proto__" ->
     (forall m, m ∈ after -> nutrient_key m <> Some k) ->
     _extractNutrients (Array entries) !! k = Some (nutrient_of n)) /\
  ((forall n, n ∈ entries -> nutrient_key n <> Some k) ->
   _extractNutrients (Array entries) !! k = None) /\
  _extractNutrients (Array entries) !! "__proto__" = None /\
  (is_Some (_extractNutrients (Array entries) !! k) ->
   JsString.toLowerCase k = k).
Proof.
  unfold _extractNutrients. split; [|split; [|split]].
  - intros before n after -> Hk Hproto Hafter.
    rewrite fold_left_app. cbn [fold_left].
    rewrite fold_nutrients_other by done.
    rewrite add_nutrient_key, Hk.
    destruct (String.eqb_spec k "__proto__") as [E|E]; [done|].
    apply lookup_insert_eq.
  - intros Hnone. by rewrite fold_nutrients_other.
  - by rewrite fold_nutrients_proto.
  - assert (forall l m,
              (is_Some (m !! k) -> JsString.toLowerCase k = k) ->
              is_Some (fold_left add_nutrient l m !! k) ->
              JsString.toLowerCase k = k) as Hfold.
    { induction l as [|n l IH]; intros m Hm; [done|].
      cbn [fold_left]. apply IH. rewrite add_nutrient_key.
      destruct (nutrient_key n) as [k'|] eqn:E; [|done].
      destruct (String.eqb k' "__proto__"); [done|].
      destruct (decide (k' = k)) as [->|Hne].
      - intros _. unfold nutrient_key in E.
        destruct (match nutrient n with
                  | Some r => ref_name r
                  | None => nutrientName n
                  end) as [text|]; [|done].
        destruct (JsString.truthy text); [|done].
        injection E as <-. apply toLowerCase_twice.
      - by rewrite lookup_insert_ne. }
    apply Hfold. rewrite lookup_empty. by intros [? ?].
Qed.

Lemma extractNutrients_last_witness :
  _extractNutrients (Array [Scenario.kcal_entry; Scenario.kJ_entry])
    !! "energy"
  = Some (nutrient_of Scenario.kJ_entry).
Proof.
  destruct (extractNutrients_last [Scenario.kcal_entry; Scenario.kJ_entry]
              "energy") as (H & _).
  apply (H [Scenario.kcal_entry] Scenario.kJ_entry []); [done|done|done|].
  intros m Hm. by apply elem_of_nil in Hm.
Defined.

End NutrientMap.

(** ** More on the batch handler *)

Section BatchMore.

Import Controller.

Variable provider : FoodDataProvider.

(** X14: the batch keeps the order of the request: the dishes of the error
    records are, in this order, dishes of the batch, and there are as many
    results as dishes that resolved, so that no dish is reported twice. *)
Theorem getBatchCalories_order (ds : list (option Dish)) (w w' : World)
    (status : nat) (results : list CalorieResult) (errors : list Failure)
    (summary : Summary) :
  getBatchCalories provider (Some ds) w
  = (Success status results errors summary, w') ->
  sublist (dish <$> errors) ds /\
  (length results + length errors = length ds)%nat /\
  total_requested summary = length ds /\
  successful summary = length results /\
  failed summary = length errors.
Proof.
  unfold getBatchCalories.
  destruct (length ds =? 0)%nat; [done|].
  destruct (10 <? length ds)%nat; [done|].
  destruct (batch_loop_trace provider ds [] [] w)
    as (rs & es & w1 & -> & Htrace).
  simpl. intros [= <- <- <- <- <-].
  split; [|split; [by eapply batch_trace_length|done]].
  clear -Htrace.
  induction Htrace; simpl;
    [done|by apply sublist_skip|by apply sublist_skip|by apply sublist_cons
    |by apply sublist_skip].
Qed.

(** A call repeated at once finds what the first call returned. *)
Lemma getCalories_again (dishName servings : value) (w w1 : World)
    (r : CalorieResult) :
  FoodService.getCalories provider dishName servings w = (Return r, w1) ->
  0 <= NodeCache.stdTTL (cache w) ->
  FoodService.getCalories provider dishName servings w1 = (Return r, w1).
Proof.
  intros H Httl. pose proof H as R. apply getCalories_inv in R.
  inversion R as [|d' s' r' Hv' Hc' Ho' Hw'
                  |d s elapsed answer outcome w' Hv Hc Hs C Ho' Hw'];
    subst; [done|].
  inversion C as [| | | |l best r0 Hne Hb Hu Hcalc result Ha Ho Hw]; subst.
  apply resolution_getCalories. eapply res_hit; [exact Hv|].
  cbn [cache clock FoodService.after_set]. apply set_get.
  cbn [cache FoodService.after_search FoodService.after_get].
  destruct (checked_frame (cache w) (clock w)
              (FoodService._generateCacheKey d s)) as (_ & -> & _).
  lia.
Qed.

Lemma batch_loop_hits (d : Dish) (r : CalorieResult) (w1 : World) :
  Js.truthy (body_dish_name d) = true ->
  Js.truthy (body_servings d) = true ->
  FoodService.getCalories provider (body_dish_name d) (body_servings d) w1
  = (Return r, w1) ->
  forall k results errors,
    batch_loop provider (replicate k (Some d)) (results, errors) w1
    = ((results ++ replicate k r, errors), w1).
Proof.
  intros Hn Hs Hget. induction k as [|k IH]; intros results errors.
  { by rewrite app_nil_r. }
  cbn [replicate batch_loop batch_step]. rewrite Hn, Hs, Hget. cbn [negb orb].
  rewrite IH, <- app_assoc. done.
Qed.

(** X15: a dish that comes several times in a batch is looked up once: if
    the first of [n] equal dishes resolves, with a TTL that is not negative,
    the batch answers [n] times the same result, without error, and leaves
    the world as the first resolution left it, so that at most one search
    was sent. *)
Theorem getBatchCalories_repeated (d : Dish) (n : nat) (w w1 : World)
    (r : CalorieResult) :
  Js.truthy (body_dish_name d) = true ->
  Js.truthy (body_servings d) = true ->
  FoodService.getCalories provider (body_dish_name d) (body_servings d) w
  = (Return r, w1) ->
  0 <= NodeCache.stdTTL (cache w) ->
  (1 <= n <= 10)%nat ->
  getBatchCalories provider (Some (replicate n (Some d))) w
  = (Success 200 (replicate n r) []
       {| total_requested := n; successful := n; failed := 0 |}, w1).
Proof.
  intros Hn Hs Hget Httl [Hlo Hhi]. unfold getBatchCalories.
  rewrite length_replicate.
  destruct (n =? 0)%nat eqn:E0; [apply Nat.eqb_eq in E0; lia|].
  destruct (10 <? n)%nat eqn:E10; [apply Nat.ltb_lt in E10; lia|].
  destruct n as [|k]; [lia|].
  cbn [replicate batch_loop batch_step]. rewrite Hn, Hs, Hget. cbn [negb orb].
  rewrite (batch_loop_hits d r w1 Hn Hs (getCalories_again _ _ _ _ _ Hget Httl)).
  cbn [app length]. by rewrite length_replicate.
Qed.

(** A dish that is not accepted leaves the world as it is. *)
Lemma batch_step_rejected (element : option Dish) results errors w :
  accepted element = false ->
  exists f,
    batch_step provider element (results, errors) w
    = ((results, errors ++ [f]), w).
Proof.
  unfold accepted, batch_step. destruct element as [d|]; [|by eexists].
  destruct (Js.truthy (body_dish_name d)); [|by eexists].
  destruct (Js.truthy (body_servings d)); [|by eexists].
  cbn [andb negb orb].
  destruct (FoodService._validateInput (body_dish_name d) (body_servings d))
    as [[name s]|m] eqn:Hv; [done|]. intros _.
  rewrite (resolution_getCalories provider _ _ w _ _
             (res_invalid provider _ _ w m Hv)).
  by eexists.
Qed.

(** The results and the world do not depend on the errors so far. *)
Lemma batch_step_errors (element : option Dish) results errors errors' w :
  (batch_step provider element (results, errors) w).1.1
  = (batch_step provider element (results, errors') w).1.1 /\
  (batch_step provider element (results, errors) w).2
  = (batch_step provider element (results, errors') w).2.
Proof.
  unfold batch_step. destruct element as [d|]; [|done].
  destruct (negb _ || negb _); [done|].
  by destruct (FoodService.getCalories provider _ _ w) as [[r|e] w1].
Qed.

Lemma batch_loop_accepted (ds : list (option Dish)) :
  forall results errors errors' w,
    (batch_loop provider ds (results, errors) w).1.1
    = (batch_loop provider (filter (fun e => Is_true (accepted e)) ds)
         (results, errors') w).1.1 /\
    (batch_loop provider ds (results, errors) w).2
    = (batch_loop provider (filter (fun e => Is_true (accepted e)) ds)
         (results, errors') w).2.
Proof.
  induction ds as [|element ds IH]; intros results errors errors' w; [done|].
  cbn [batch_loop]. destruct (accepted element) eqn:Ea.
  - rewrite filter_cons_True by (rewrite Ea; exact I).
    cbn [batch_loop].
    destruct (batch_step_errors element results errors errors' w) as [E1 E2].
    destruct (batch_step provider element (results, errors) w)
      as [[rs es] w1].
    destruct (batch_step provider element (results, errors') w)
      as [[rs' es'] w1']. simpl in E1, E2. subst. apply IH.
  - rewrite filter_cons_False by (rewrite Ea; exact (fun x => x)).
    destruct (batch_step_rejected element results errors w Ea) as [f ->].
    apply IH.
Qed.

(** X16: the dishes a batch turns away do not touch the others: nulls,
    dishes without name or servings and dishes that fail the validation
    leave the world as it is, so that the results of a batch, and the cache
    and the searches after it, are those of the batch without them. *)
Theorem batch_loop_isolation (ds : list (option Dish)) (w : World) :
  let all := batch_loop provider ds ([], []) w in
  let kept :=
    batch_loop provider (filter (fun e => Is_true (accepted e)) ds)
      ([], []) w in
  all.1.1 = kept.1.1 /\ all.2 = kept.2.
Proof. apply batch_loop_accepted. Qed.

End BatchMore.

Lemma getBatchCalories_order_witness :
  match Controller.getBatchCalories
          (USDAProvider.provider Scenario.macaroni_api)
          (Some Scenario.three_dishes) Scenario.fresh with
  | (Controller.Success _ results errors summary, _) =>
      sublist (Controller.dish <$> errors) Scenario.three_dishes /\
      (length results + length errors = length Scenario.three_dishes)%nat /\
      Controller.total_requested summary = length Scenario.three_dishes /\
      Controller.successful summary = length results /\
      Controller.failed summary = length errors
  | _ => False
  end.
Proof.
  eassert (Controller.getBatchCalories
             (USDAProvider.provider Scenario.macaroni_api)
             (Some Scenario.three_dishes) Scenario.fresh
           = (Controller.Success _ _ _ _, _)) as E
    by (vm_compute; reflexivity).
  rewrite E.
  exact (getBatchCalories_order _ _ _ _ _ _ _ _ E).
Defined.

Lemma getBatchCalories_repeated_witness :
  exists r,
    Controller.getBatchCalories
      (USDAProvider.provider Scenario.macaroni_api)
      (Some Scenario.four_macaroni) Scenario.fresh
    = (Controller.Success 200 (replicate 4 r) []
         {| Controller.total_requested := 4; Controller.successful := 4;
            Controller.failed := 0 |}, Scenario.warm).
Proof.
  eexists.
  apply (getBatchCalories_repeated
           (USDAProvider.provider Scenario.macaroni_api)
           (Controller.mkDish (VString "macaroni and cheese")
              (VNumber Scenario.two)) 4 Scenario.fresh Scenario.warm);
    [reflexivity|reflexivity|by vm_compute|by vm_compute|lia].
Defined.

(** ** What the cache holds *)

Section Soundness.

Import Controller.

Variable api : USDAProvider.Upstream.

Lemma getCalories_sound_step (dishName servings : value) (w : World) :
  sound w ->
  (forall r,
     (FoodService.getCalories (USDAProvider.provider api) dishName servings
        w).1 = Return r -> coherent r) /\
  sound (FoodService.getCalories (USDAProvider.provider api) dishName
           servings w).2.
Proof.
  intros S.
  pose proof (getCalories_resolution (USDAProvider.provider api) dishName
                servings w) as R.
  destruct (FoodService.getCalories (USDAProvider.provider api) dishName
              servings w) as [o w'].
  cbn [fst snd] in *.
  inversion R as [m Hv Ho Hw|d s r Hv Hc Ho Hw
                  |d s elapsed answer outcome w2 Hv Hc Hs C Ho Hw]; subst.
  - by split.
  - split; [|done]. intros r' [= <-]. unfold NodeCache.get in Hc.
    destruct (NodeCache.data _ !! _) as [e|] eqn:He; [|done].
    destruct (NodeCache.alive _ e); [|done].
    injection Hc as <-. by eapply S.
  - assert (forall key e,
              NodeCache.data
                (NodeCache.checked (cache w) (clock w)
                   (FoodService._generateCacheKey d s)) !! key = Some e ->
              coherent (NodeCache.v e)) as Hchk.
    { intros key e. unfold NodeCache.checked.
      destruct (NodeCache.data (cache w) !! _) as [e0|]; [|apply S].
      destruct (NodeCache.alive _ e0); [apply S|].
      cbn [NodeCache.del NodeCache.data].
      intros [_ He]%lookup_delete_Some. by eapply S. }
    inversion C as [m' Ha Ho' Hw'|Ha Ho' Hw'|l Hne Hu Ha Ho' Hw'
                    |l best m' Hne Hb Hu Hcalc Ha Ho' Hw'
                    |l best r0 Hne Hb Hu Hcalc result Ha Ho' Hw']; subst;
      try (split; [done|exact Hchk]).
    assert (coherent result) as Hres.
    { apply validated in Hv as (_ & _ & _ & _ & Hserv).
      cbn [calculateCalories USDAProvider.provider] in Hcalc.
      unfold USDAProvider.calculateCalories in Hcalc.
      rewrite Hu in Hcalc. cbn [negb] in Hcalc.
      destruct (negb (Number.truthy s) || Number.le s Number.zero);
        [done|].
      injection Hcalc as <-. unfold result, coherent. cbn.
      destruct (calories best) as [c|]; [|done]. by cbn in *. }
    split; [by intros r' [= <-]|].
    intros key e.
    cbn [cache FoodService.after_set FoodService.after_search
         FoodService.after_get NodeCache.set NodeCache.data].
    rewrite lookup_insert_Some.
    intros [[_ <-]|[_ He]]; [exact Hres|by eapply Hchk].
Qed.

(** X17: the service hands out coherent results only. With the USDA
    provider, from a world whose cache holds coherent results, whatever
    [getCalories] returns, from the cache or from a search, has a calorie
    value that counts, servings within the bounds, and as total their
    rounded product; and the cache it leaves holds coherent results only. *)
Theorem getCalories_sound (dishName servings : value) (w : World) :
  sound w ->
  (forall r,
     (FoodService.getCalories (USDAProvider.provider api) dishName servings
        w).1 = Return r -> coherent r) /\
  sound (FoodService.getCalories (USDAProvider.provider api) dishName
           servings w).2.
Proof. apply getCalories_sound_step. Qed.

Lemma batch_loop_sound (ds : list (option Dish)) :
  forall results errors w,
    Forall coherent results -> sound w ->
    Forall coherent
      (batch_loop (USDAProvider.provider api) ds (results, errors) w).1.1 /\
    sound (batch_loop (USDAProvider.provider api) ds (results, errors) w).2.
Proof.
  induction ds as [|element ds IH]; intros results errors w Hrs S; [done|].
  cbn [batch_loop].
  assert (Forall coherent
            (batch_step (USDAProvider.provider api) element
               (results, errors) w).1.1 /\
          sound (batch_step (USDAProvider.provider api) element
                   (results, errors) w).2) as [H1 H2].
  { unfold batch_step. destruct element as [d|]; [|done].
    destruct (negb _ || negb _); [done|].
    destruct (getCalories_sound_step (body_dish_name d) (body_servings d)
                w S) as [Hr Hw].
    destruct (FoodService.getCalories _ _ _ w) as [[r|e] w1];
      cbn [fst snd] in *; [|done].
    split; [|done]. apply Forall_app. split; [done|].
    apply Forall_singleton. by apply Hr. }
  destruct (batch_step (USDAProvider.provider api) element
              (results, errors) w) as [[rs es] w1].
  by apply IH.
Qed.

(** X18: so does the batch: from a world whose cache holds coherent
    results, every result of a batch is coherent, and so is the cache after
    it. *)
Theorem getBatchCalories_sound (ds : list (option Dish)) (w w' : World)
    (status : nat) (results : list CalorieResult) (errors : list Failure)
    (summary : Summary) :
  sound w ->
  getBatchCalories (USDAProvider.provider api) (Some ds) w
  = (Success status results errors summary, w') ->
  Forall coherent results /\ sound w'.
Proof.
  intros S. unfold getBatchCalories.
  destruct (length ds =? 0)%nat; [done|].
  destruct (10 <? length ds)%nat; [done|].
  destruct (batch_loop_sound ds [] [] w (Forall_nil_2 _) S) as [H1 H2].
  destruct (batch_loop (USDAProvider.provider api) ds ([], []) w)
    as [[rs es] w1].
  by intros [= _ <- _ _ <-].
Qed.

End Soundness.

Lemma sound_new_cache (CACHE_TTL_SECONDS : option Z) (t : Z)
    (log : list (string * SearchOptions)) :
  sound {| clock := t; cache := FoodService.new_cache CACHE_TTL_SECONDS;
           calls := log |}.
Proof. intros key e. cbn. by rewrite lookup_empty. Qed.

Lemma getCalories_sound_witness :
  sound (FoodService.getCalories
           (USDAProvider.provider Scenario.macaroni_api)
           (VString "macaroni and cheese") (VNumber Scenario.two)
           Scenario.fresh).2.
Proof.
  apply (getCalories_sound Scenario.macaroni_api).
  intros key e. cbn. by rewrite lookup_empty.
Defined.

Lemma getBatchCalories_sound_witness :
  match Controller.getBatchCalories
          (USDAProvider.provider Scenario.macaroni_api)
          (Some Scenario.three_dishes) Scenario.fresh with
  | (Controller.Success _ results _ _, w') =>
      results <> [] /\ Forall coherent results /\ sound w'
  | _ => False
  end.
Proof.
  eassert (Controller.getBatchCalories
             (USDAProvider.provider Scenario.macaroni_api)
             (Some Scenario.three_dishes) Scenario.fresh
           = (Controller.Success _ _ _ _, _)) as E
    by (vm_compute; reflexivity).
  rewrite E. split; [done|].
  eapply (getBatchCalories_sound Scenario.macaroni_api
            Scenario.three_dishes Scenario.fresh); [|exact E].
  intros key e. cbn. by rewrite lookup_empty.
Defined.

(** ** The cache of the service *)

Section Constructor.

Import FoodService.

Lemma ttl_of_env_nonzero (CACHE_TTL_SECONDS : option Z) :
  ttl_of_env CACHE_TTL_SECONDS <> 0.
Proof.
  unfold ttl_of_env. destruct CACHE_TTL_SECONDS as [n|]; [|done].
  destruct (n =? 0) eqn:E; [done|]. by apply Z.eqb_neq.
Qed.

(** X19: the cache of the service keeps nothing for ever: whatever
    [CACHE_TTL_SECONDS] says, 0 included, an entry set at [now] is gone
    once [now] plus the TTL is past, unless that instant is 0; with a
    negative TTL it is gone from the start. *)
Theorem new_cache_expires (CACHE_TTL_SECONDS : option Z) (now t : Z)
    (key : string) (value : CalorieResult) :
  now + ttl_of_env CACHE_TTL_SECONDS * 1000 <> 0 ->
  now + ttl_of_env CACHE_TTL_SECONDS * 1000 < t ->
  NodeCache.get (NodeCache.set (new_cache CACHE_TTL_SECONDS) now key value)
    t key = None.
Proof.
  intros Hnz Hlt.
  unfold NodeCache.get, NodeCache.set, new_cache, NodeCache.create.
  cbn [NodeCache.data NodeCache.stdTTL].
  rewrite lookup_insert_eq.
  unfold NodeCache.alive, NodeCache.livetime.
  cbn [NodeCache.t NodeCache.stdTTL].
  destruct (ttl_of_env CACHE_TTL_SECONDS =? 0) eqn:E;
    [apply Z.eqb_eq in E; by destruct (ttl_of_env_nonzero CACHE_TTL_SECONDS)|].
  apply Z.eqb_neq in Hnz. apply Z.ltb_lt in Hlt. by rewrite Hnz, Hlt.
Qed.

Lemma new_cache_expires_witness :
  NodeCache.get
    (NodeCache.set (new_cache (Some 0)) 1000 "calories_pizza_2"
       (mkCalorieResult "pizza" Scenario.two (Number.of_Z 266)
          (Number.of_Z 532) "USDA FoodData Central" [] ∅ None None None))
    3601001 "calories_pizza_2" = None.
Proof.
  apply (new_cache_expires (Some 0) 1000 3601001); by vm_compute.
Defined.

End Constructor.

(** ** Answers without a calorie value *)

Section Unrecognised.

Import FoodService.

Lemma findBestMatch_without_calories (d : string) (l : list FoodItem) :
  (forall x, x ∈ l -> calories x = None) ->
  _findBestMatch d l
  = match l with
    | [] => (None, l)
    | firstResult :: _ =>
        match find has_energy l with
        | Some (i, withEnergyNutrient) =>
            (Some i,
             <[i := set_calories
                      (Number.round
                         match nutrients withEnergyNutrient !! "energy" with
                         | Some e => nutrient_value e
                         | None => NaN
                         end) withEnergyNutrient]> l)
        | None =>
            (Some 0%nat,
             match nutrients firstResult !! "energy" with
             | Some e =>
                 <[0%nat := set_calories
                              (Number.round
                                 (Number.or (nutrient_value e) Number.zero))
                              firstResult]> l
             | None => l
             end)
        end
    end.
Proof.
  intros Hnone. unfold _findBestMatch. destruct l as [|x l']; [done|].
  set (l := x :: l') in *.
  assert (find has_calories l = None) as ->.
  { apply find_none. intros y Hy. unfold has_calories.
    by rewrite (Hnone y Hy). }
  destruct (find (exact d) l) as [[i item]|] eqn:Hex; [|done].
  apply find_first in Hex as (Hi & _ & _).
  by rewrite (Hnone item (list_elem_of_lookup_2 _ _ _ Hi)).
Qed.

(** X20: when the provider reads no calorie value off any food of an
    answer, the name asked for plays no part in the selection:
    [_findBestMatch] selects, whatever the name, the first candidate whose
    nutrients hold an energy above 0, and the first candidate when there is
    none. *)
Theorem findBestMatch_unrecognised (d1 d2 : string)
    (data : USDAProvider.SearchData) (fs : list USDAProvider.Food) :
  USDAProvider.foods data = Some fs ->
  (forall f, f ∈ fs ->
     USDAProvider._extractCalories (USDAProvider.foodNutrients f) = None) ->
  let l := USDAProvider._transformSearchResults data in
  _findBestMatch d1 l = _findBestMatch d2 l /\
  (fs <> [] ->
   (_findBestMatch d1 l).1
   = match find has_energy l with
     | Some (i, _) => Some i
     | None => Some 0%nat
     end).
Proof.
  intros Hfs Hnone l.
  assert (forall x, x ∈ l -> calories x = None) as Hl.
  { intros x. unfold l, USDAProvider._transformSearchResults.
    rewrite Hfs. intros (f & -> & Hf)%list_elem_of_fmap.
    exact (Hnone f Hf). }
  rewrite !(findBestMatch_without_calories _ l Hl). split; [done|].
  intros Hne. destruct l as [|x l'] eqn:El.
  { unfold l, USDAProvider._transformSearchResults in El.
    rewrite Hfs in El. by destruct fs. }
  by destruct (find has_energy (x :: l')) as [[i y]|].
Qed.

End Unrecognised.

Lemma findBestMatch_unrecognised_witness :
  FoodService._findBestMatch "apple"
    (USDAProvider._transformSearchResults
       (USDAProvider.mkSearchData (Some [Scenario.apple_food])))
  = FoodService._findBestMatch "Apples, raw, with skin"
      (USDAProvider._transformSearchResults
         (USDAProvider.mkSearchData (Some [Scenario.apple_food]))).
Proof.
  apply (findBestMatch_unrecognised "apple" "Apples, raw, with skin"
           (USDAProvider.mkSearchData (Some [Scenario.apple_food]))
           [Scenario.apple_food]); [reflexivity|].
  intros f Hf. apply list_elem_of_singleton in Hf as ->. reflexivity.
Defined.
